(** * datum: a date-only value type (year, month, day)

    Shallow embedding of [datum.ts] and verification of its calendar
    arithmetic.

    Two revisions of [datum.ts] are covered.  They run the same
    computations and fail at the same places; they differ in the class of
    the JavaScript exception raised at each place, and the later revision
    adds [subtractDays] and a [default] branch in [weekday]:

    - the assertion-based revision ([assert], [assertEquals] and
      [throw new Error]), without [subtractDays];
    - the revision with explicit [throw new TypeError] / [RangeError],
      which has [subtractDays].

    The embedding therefore returns the _place_ of a failure ([failure]) and
    [thrown] gives, per revision, the exception class raised there. *)

From Stdlib Require Import ZArith List Bool String Ascii Lia Arith Permutation.
Import ListNotations.

Local Open Scope Z_scope.

(** ** JavaScript numbers

    Every number the program computes with is first checked by
    [Number.isInteger]; a value that fails the check (a fraction, [NaN],
    an infinity) is rejected before it is used.  [NotInt] stands for all
    of them. *)

Inductive number : Type :=
| Int (z : Z)
| NotInt.

Definition Number_isInteger (n : number) : bool :=
  match n with Int _ => true | NotInt => false end.

(** [n + k] for an integer constant [k]; [NaN + k] is [NaN]. *)
Definition number_add (n : number) (k : Z) : number :=
  match n with Int z => Int (z + k) | NotInt => NotInt end.

(** ** Failures *)

Inductive failure : Type :=
| YearNotInteger
| YearOutOfRange
| MonthNotInteger
| MonthOutOfRange
| DayNotInteger
| DayOutOfRange
| DayExceedsMonth
| StrLength
| StrFormat
| DaysNotInteger
| DaysNegative
| DeltaInvariant
| WeekdayInvariant.

(** What a call does: it returns, or it throws.  The [while (true)] loops
    are run with a step budget; [OutOfFuel] is a loop that used it up, and
    [loops_terminate] below shows that no call on a valid date ends that
    way. *)
Inductive result (A : Type) : Type :=
| Ok (a : A)
| Throw (f : failure)
| OutOfFuel.

Arguments Ok {A} a.
Arguments Throw {A} f.
Arguments OutOfFuel {A}.

Definition bind {A B : Type} (r : result A) (k : A -> result B) : result B :=
  match r with
  | Ok a => k a
  | Throw f => Throw f
  | OutOfFuel => OutOfFuel
  end.

Notation "x <- r ;; k" := (bind r (fun x => k))
  (at level 61, r at next level, right associativity).

Inductive revision : Type :=
| Asserting   (* assert / assertEquals / throw new Error *)
| Throwing.   (* throw new TypeError / RangeError *)

Inductive jsError : Type :=
| TypeError
| RangeError
| AssertionError
| PlainError.

(** The exception raised at each failure place; [None] where the revision
    has no [throw] (the [switch] of [weekday] without [default]). *)
Definition thrown (r : revision) (f : failure) : option jsError :=
  match r, f with
  | Throwing, (YearNotInteger | YearOutOfRange) => Some TypeError
  | Throwing, (MonthNotInteger | MonthOutOfRange) => Some TypeError
  | Throwing, (DayNotInteger | DayOutOfRange) => Some TypeError
  | Throwing, DayExceedsMonth => Some RangeError
  | Throwing, (StrLength | StrFormat) => Some RangeError
  | Throwing, DaysNotInteger => Some TypeError
  | Throwing, DaysNegative => Some RangeError
  | Throwing, (DeltaInvariant | WeekdayInvariant) => Some PlainError
  | Asserting, (DayExceedsMonth | StrFormat) => Some PlainError
  | Asserting, WeekdayInvariant => None
  | Asserting, _ => Some AssertionError
  end.

(** ** The Datum type *)

Inductive Weekday : Type :=
| Monday | Tuesday | Wednesday | Thursday | Friday | Saturday | Sunday.

Definition Weekday_value (w : Weekday) : Z :=
  match w with
  | Monday => 0 | Tuesday => 1 | Wednesday => 2 | Thursday => 3
  | Friday => 4 | Saturday => 5 | Sunday => 6
  end.

Record Datum : Type := mkDatum { year : Z; month : Z; day : Z }.

(** The assertions return the integer they have checked. *)
Definition assertIsYear (year : number) : result Z :=
  match year with
  | NotInt => Throw YearNotInteger
  | Int y => if (0 <=? y) && (y <=? 9999) then Ok y else Throw YearOutOfRange
  end.

Definition assertIsMonth (month : number) : result Z :=
  match month with
  | NotInt => Throw MonthNotInteger
  | Int m => if (1 <=? m) && (m <=? 12) then Ok m else Throw MonthOutOfRange
  end.

Definition assertIsDay (day : number) : result Z :=
  match day with
  | NotInt => Throw DayNotInteger
  | Int d => if (1 <=? d) && (d <=? 31) then Ok d else Throw DayOutOfRange
  end.

(** [%] of JavaScript truncates towards zero: [Z.rem]. *)
Definition isLeapYear (year : number) : result bool :=
  y <- assertIsYear year ;;
  Ok (((Z.rem y 4 =? 0) && negb (Z.rem y 100 =? 0)) || (Z.rem y 400 =? 0)).

(** The array literal of [getDaysInMonth], indexed by the month; the index
    has passed [assertIsMonth], so the default of [nth] is never read. *)
Definition getDaysInMonth (year month : number) : result Z :=
  _ <- assertIsYear year ;;
  m <- assertIsMonth month ;;
  leap <- isLeapYear year ;;
  Ok (nth (Z.to_nat m)
          [0; 31; (if leap then 29 else 28); 31; 30; 31; 30; 31; 31; 30; 31; 30; 31]
          0).

Definition getDaysInYear (year : number) : result Z :=
  _ <- assertIsYear year ;;
  leap <- isLeapYear year ;;
  Ok (if leap then 366 else 365).

(** The constructor. *)
Definition Datum_new (year month day : number) : result Datum :=
  y <- assertIsYear year ;;
  m <- assertIsMonth month ;;
  d <- assertIsDay day ;;
  daysInMonth <- getDaysInMonth year month ;;
  if d >? daysInMonth then Throw DayExceedsMonth
  else Ok (mkDatum y m d).

Definition toTuple (this : Datum) : Z * Z * Z :=
  (year this, month this, day this).

Definition fromTuple (t : number * number * number) : result Datum :=
  let '(year, month, day) := t in Datum_new year month day.

(** ** Comparison *)

Definition isEqual (this other : Datum) : bool :=
  (year this =? year other) && (month this =? month other)
  && (day this =? day other).

Definition isBefore (this other : Datum) : bool :=
  (year this <? year other)
  || ((year this =? year other) && (month this <? month other))
  || ((year this =? year other) && (month this =? month other)
      && (day this <? day other)).

Definition isAfter (this other : Datum) : bool :=
  (year this >? year other)
  || ((year this =? year other) && (month this >? month other))
  || ((year this =? year other) && (month this =? month other)
      && (day this >? day other)).

(** The body of the [for (const datum of datums)] loop of [min]:
    [if (min == null || datum.isBefore(min)) min = datum]. *)
Definition min_step (min : option Datum) (datum : Datum) : option Datum :=
  match min with
  | None => Some datum
  | Some m => if isBefore datum m then Some datum else Some m
  end.

(** The loop over the iterable, as a left fold from [null]. *)
Definition min (datums : list Datum) : option Datum :=
  fold_left min_step datums None.

Definition max_step (max : option Datum) (datum : Datum) : option Datum :=
  match max with
  | None => Some datum
  | Some m => if isAfter datum m then Some datum else Some m
  end.

Definition max (datums : list Datum) : option Datum :=
  fold_left max_step datums None.

Definition compareAsc (first second : Datum) : Z :=
  if isBefore first second then -1
  else if isAfter first second then 1
  else 0.

Definition compareDesc (first second : Datum) : Z :=
  if isBefore first second then 1
  else if isAfter first second then -1
  else 0.

(** ** Day-count arithmetic *)

Definition daysUntilFirstDayOfNextMonth (this : Datum) : result Z :=
  daysInMonth <- getDaysInMonth (Int (year this)) (Int (month this)) ;;
  Ok (daysInMonth - day this + 1).

(** The block "move to first day of next month", shared by the loops of
    [addDays] and [deltaDays]. *)
Definition firstDayOfNextMonth (current : Datum) : result Datum :=
  if month current =? 12
  then Datum_new (Int (year current + 1)) (Int 1) (Int 1)
  else Datum_new (Int (year current)) (Int (month current + 1)) (Int 1).

(** The block "move to last day of previous month" of [subtractDays]. *)
Definition lastDayOfPreviousMonth (current : Datum) : result Datum :=
  if month current =? 1
  then
    lastDayInPreviousMonth <- getDaysInMonth (Int (year current - 1)) (Int 12) ;;
    Datum_new (Int (year current - 1)) (Int 12) (Int lastDayInPreviousMonth)
  else
    lastDayInPreviousMonth <-
      getDaysInMonth (Int (year current)) (Int (month current - 1)) ;;
    Datum_new (Int (year current)) (Int (month current - 1))
              (Int lastDayInPreviousMonth).

(** Step budgets: the months from [current] up to the end of year 9999, and
    down to the start of year 0. *)
Definition monthsAhead (current : Datum) : nat :=
  S (Z.to_nat (12 * (10000 - year current) - month current)).

Definition monthsBehind (current : Datum) : nat :=
  S (Z.to_nat (12 * year current + month current)).

Fixpoint addDays_loop (fuel : nat) (daysToAdd : Z) (current : Datum)
  : result Datum :=
  match fuel with
  | O => OutOfFuel
  | S fuel' =>
      daysUntilNextMonth <- daysUntilFirstDayOfNextMonth current ;;
      if daysToAdd <? daysUntilNextMonth
      then Datum_new (Int (year current)) (Int (month current))
                     (Int (day current + daysToAdd))
      else
        next <- firstDayOfNextMonth current ;;
        addDays_loop fuel' (daysToAdd - daysUntilNextMonth) next
  end.

Definition addDays (this : Datum) (days : number) : result Datum :=
  match days with
  | NotInt => Throw DaysNotInteger
  | Int n =>
      if 0 <=? n then addDays_loop (monthsAhead this) n this
      else Throw DaysNegative
  end.

Fixpoint subtractDays_loop (fuel : nat) (daysToSubtract : Z) (current : Datum)
  : result Datum :=
  match fuel with
  | O => OutOfFuel
  | S fuel' =>
      let daysSincePreviousMonth := day current in
      if daysToSubtract <? daysSincePreviousMonth
      then Datum_new (Int (year current)) (Int (month current))
                     (Int (day current - daysToSubtract))
      else
        previous <- lastDayOfPreviousMonth current ;;
        subtractDays_loop fuel' (daysToSubtract - daysSincePreviousMonth)
                          previous
  end.

Definition subtractDays (this : Datum) (days : number) : result Datum :=
  match days with
  | NotInt => Throw DaysNotInteger
  | Int n =>
      if 0 >? n then Throw DaysNegative
      else subtractDays_loop (monthsBehind this) n this
  end.

Fixpoint deltaDays_loop (fuel : nat) (deltaDays : Z) (current until : Datum)
  : result Z :=
  match fuel with
  | O => OutOfFuel
  | S fuel' =>
      if (year current =? year until) && (month current =? month until)
      then Ok (deltaDays + Z.abs (day current - day until))
      else
        stride <- daysUntilFirstDayOfNextMonth current ;;
        next <- firstDayOfNextMonth current ;;
        deltaDays_loop fuel' (deltaDays + stride) next until
  end.

Definition deltaDays (this other : Datum) : result Z :=
  if isEqual this other then Ok 0
  else
    let until := if isAfter this other then this else other in
    let current := if isBefore this other then this else other in
    if isEqual until current then Throw DeltaInvariant
    else deltaDays_loop (monthsAhead current) 0 current until.

(** ** Weekdays *)

Definition weekday (this : Datum) : result Weekday :=
  referenceMonday <- Datum_new (Int 2019) (Int 8) (Int 26) ;;
  deltaDays <- deltaDays this referenceMonday ;;
  let weekdayIndex := Z.rem deltaDays 7 in
  if isBefore this referenceMonday then
    match weekdayIndex with
    | 6 => Ok Tuesday
    | 5 => Ok Wednesday
    | 4 => Ok Thursday
    | 3 => Ok Friday
    | 2 => Ok Saturday
    | 1 => Ok Sunday
    | 0 => Ok Monday
    | _ => Throw WeekdayInvariant
    end
  else
    match weekdayIndex with
    | 0 => Ok Monday
    | 1 => Ok Tuesday
    | 2 => Ok Wednesday
    | 3 => Ok Thursday
    | 4 => Ok Friday
    | 5 => Ok Saturday
    | 6 => Ok Sunday
    | _ => Throw WeekdayInvariant
    end.

(** The three-letter labels of the weekdays. *)
Definition Weekday_label (w : Weekday) : string :=
  match w with
  | Monday => "mon" | Tuesday => "tue" | Wednesday => "wed"
  | Thursday => "thu" | Friday => "fri" | Saturday => "sat" | Sunday => "sun"
  end%string.


(** ** String conversion

    A string is a sequence of 8-bit character codes.  A UTF-16 code unit
    above 255 is neither a digit nor a hyphen: in a string given to
    [fromString] it can only make the match fail, as any other character
    that is not a digit does. *)

Local Open Scope string_scope.

Definition digitChar (k : Z) : ascii := ascii_of_N (48 + Z.to_N k).

(** [\d] of a regular expression without the unicode flag: [0-9]. *)
Definition isDigit (c : ascii) : bool :=
  let n := N_of_ascii c in (48 <=? n)%N && (n <=? 57)%N.

Definition digitValue (c : ascii) : Z := Z.of_N (N_of_ascii c) - 48.

(** [Number.prototype.toString] on an integer: its decimal digits, most
    significant first, after a minus sign when it is negative.  (Numbers
    from 1e21 on print in exponent form; no field of a Datum gets there.)
    The digits are produced from the last one; a number has no more
    decimal digits than binary ones, which bounds the turns. *)
Fixpoint digitsOf (fuel : nat) (n : Z) (acc : string) : string :=
  match fuel with
  | O => acc
  | S fuel' =>
      let acc' := String (digitChar (n mod 10)) acc in
      if (n / 10 =? 0)%Z then acc' else digitsOf fuel' (n / 10) acc'
  end.

Definition Number_toString (z : Z) : string :=
  if (z <? 0)%Z
  then "-" ++ digitsOf (S (Z.to_nat (Z.log2 (- z)))) (- z) ""
  else digitsOf (S (Z.to_nat (Z.log2 z))) z "".

(** [while (result.length < targetLength) result = "0" + result]: every
    turn makes [result] one longer, so [targetLength] turns are enough. *)
Fixpoint padWithLeadingZeros_loop (fuel : nat) (result : string)
         (targetLength : nat) : string :=
  match fuel with
  | O => result
  | S fuel' =>
      if (String.length result <? targetLength)%nat
      then padWithLeadingZeros_loop fuel' ("0" ++ result) targetLength
      else result
  end.

Definition padWithLeadingZeros (str : string) (targetLength : nat) : string :=
  padWithLeadingZeros_loop targetLength str targetLength.

Definition toString (this : Datum) : string :=
  let yearStr := padWithLeadingZeros (Number_toString (year this)) 4 in
  let monthStr := padWithLeadingZeros (Number_toString (month this)) 2 in
  let dayStr := padWithLeadingZeros (Number_toString (day this)) 2 in
  yearStr ++ "-" ++ monthStr ++ "-" ++ dayStr.

(** Matching [/^(\d{4})\-(\d\d)\-(\d\d)$/]: [takeDigits n] is [\d{n}] as a
    capture group, [expectChar] a literal, and the match has to end where
    the string ends (no [m] flag, so [$] is the end of the input). *)
Fixpoint takeDigits (n : nat) (s : string) : option (string * string) :=
  match n with
  | O => Some ("", s)
  | S n' =>
      match s with
      | String c rest =>
          if isDigit c then
            match takeDigits n' rest with
            | Some (group, rest') => Some (String c group, rest')
            | None => None
            end
          else None
      | EmptyString => None
      end
  end.

Definition expectChar (c : ascii) (s : string) : option string :=
  match s with
  | String c' rest => if Ascii.eqb c c' then Some rest else None
  | EmptyString => None
  end.

Definition match_REGEX (str : string) : option (string * string * string) :=
  match takeDigits 4 str with
  | None => None
  | Some (g1, rest1) =>
      match expectChar "-" rest1 with
      | None => None
      | Some rest2 =>
          match takeDigits 2 rest2 with
          | None => None
          | Some (g2, rest3) =>
              match expectChar "-" rest3 with
              | None => None
              | Some rest4 =>
                  match takeDigits 2 rest4 with
                  | Some (g3, EmptyString) => Some (g1, g2, g3)
                  | _ => None
                  end
              end
          end
      end
  end.

(** [parseInt(s, 10)]: leading white space is skipped, a sign is read, then
    the longest run of decimal digits; [NaN] when there is no digit. *)
Definition isWhiteSpace (c : ascii) : bool :=
  let n := N_of_ascii c in
  ((9 <=? n)%N && (n <=? 13)%N) || (n =? 32)%N || (n =? 160)%N.

Fixpoint trimStart (s : string) : string :=
  match s with
  | String c rest => if isWhiteSpace c then trimStart rest else s
  | EmptyString => s
  end.

Fixpoint parseDigits (s : string) (acc : option Z) : option Z :=
  match s with
  | String c rest =>
      if isDigit c
      then parseDigits rest
             (Some (10 * (match acc with Some a => a | None => 0 end)
                    + digitValue c))
      else acc
  | EmptyString => acc
  end.

Definition parseInt (s : string) : number :=
  let s := trimStart s in
  let '(negative, digits) :=
    match s with
    | String c rest =>
        if Ascii.eqb c "-" then (true, rest)
        else if Ascii.eqb c "+" then (false, rest)
        else (false, s)
    | EmptyString => (false, s)
    end in
  match parseDigits digits None with
  | None => NotInt
  | Some v => Int (if negative then - v else v)
  end.

Definition STRING_LENGTH : nat := 10.

Definition fromString (str : string) : result Datum :=
  if negb (String.length str =? STRING_LENGTH)%nat then Throw StrLength
  else
    match match_REGEX str with
    | None => Throw StrFormat
    | Some (g1, g2, g3) =>
        let year := parseInt g1 in
        let month := parseInt g2 in
        let day := parseInt g3 in
        Datum_new year month day
    end.

(** The three getters of a host [Date] that [fromDate] reads; each is an
    integer, or [NaN] on an invalid date. *)
Record Date : Type :=
  mkDate { getFullYear : number; getMonth : number; getDate : number }.

Definition fromDate (date : Date) : result Datum :=
  let year := getFullYear date in
  let month := number_add (getMonth date) 1 in
  let day := getDate date in
  Datum_new year month day.

(** [today] reads the host clock; [now] is what [new Date()] gave. *)
Definition today (now : Date) : result Datum := fromDate now.

(** [age] reads today's date from the host clock; [now] is what
    [new Date()] gave. *)
Definition age (this : Datum) (now : Date) : result Z :=
  today <- today now ;;
  let age := year today - year this in
  let month := month today - month this in
  Ok (if (month <? 0)%Z || ((month =? 0)%Z && (day today <? day this)%Z)
      then age - 1
      else age)%Z.

(** [Weekday[n]], the reverse mapping of the enum: the name of a member. *)
Definition Weekday_name (w : Weekday) : string :=
  match w with
  | Monday => "Monday" | Tuesday => "Tuesday" | Wednesday => "Wednesday"
  | Thursday => "Thursday" | Friday => "Friday" | Saturday => "Saturday"
  | Sunday => "Sunday"
  end.

(** [String.prototype.toLowerCase] on 8-bit characters: the letters A-Z
    and the capital letters of Latin-1 move up by 32. *)
Definition toLowerCase_char (c : ascii) : ascii :=
  let n := N_of_ascii c in
  if ((65 <=? n) && (n <=? 90)
      || (192 <=? n) && (n <=? 222) && negb (n =? 215))%N
  then ascii_of_N (n + 32)
  else c.

Fixpoint toLowerCase (s : string) : string :=
  match s with
  | String c rest => String (toLowerCase_char c) (toLowerCase rest)
  | EmptyString => EmptyString
  end.

(** [s.slice(0, n)]: the first [n] characters, or all of a shorter [s]. *)
Definition slice_from_0 (n : nat) (s : string) : string := substring 0 n s.

Definition weekdayString (this : Datum) : result string :=
  w <- weekday this ;;
  Ok (slice_from_0 3 (toLowerCase (Weekday_name w))).

Local Close Scope string_scope.

(** ** The calendar, stated independently of the code

    The Gregorian rule and the month lengths as a calendar states them, and
    the number of a day counted from 0000-01-01.  The functions of
    [datum.ts] are compared with these below. *)

Definition Gregorian_leap (y : Z) : Prop :=
  ((4 | y) /\ ~ (100 | y)) \/ (400 | y).

Definition leapb (y : Z) : bool :=
  ((y mod 4 =? 0) && negb (y mod 100 =? 0)) || (y mod 400 =? 0).

Definition monthLength (y m : Z) : Z :=
  match m with
  | 2 => if leapb y then 29 else 28
  | 4 | 6 | 9 | 11 => 30
  | _ => 31
  end.

Definition yearLength (y : Z) : Z := if leapb y then 366 else 365.

(** Calendar validity of a (year, month, day) triple. *)
Definition valid (d : Datum) : Prop :=
  0 <= year d <= 9999 /\
  1 <= month d <= 12 /\
  1 <= day d <= monthLength (year d) (month d).

Definition validb (d : Datum) : bool :=
  (0 <=? year d) && (year d <=? 9999)
  && (1 <=? month d) && (month d <=? 12)
  && (1 <=? day d) && (day d <=? monthLength (year d) (month d)).

(** Days in the years [0 .. y-1]. *)
Fixpoint daysBeforeYear (y : nat) : Z :=
  match y with
  | O => 0
  | S k => daysBeforeYear k + yearLength (Z.of_nat k)
  end.

(** Days in the months [1 .. m-1] of year [y]. *)
Definition daysBeforeMonth (y : Z) (m : nat) : Z :=
  fold_right Z.add 0
             (map (fun k => monthLength y (Z.of_nat k)) (seq 1 (Nat.pred m))).

(** The number of a day, 0000-01-01 being day 0. *)
Definition dayNumber (d : Datum) : Z :=
  daysBeforeYear (Z.to_nat (year d))
  + daysBeforeMonth (year d) (Z.to_nat (month d))
  + (day d - 1).

(** The fixed-width decimal forms: two and four digits. *)
Definition digits2 (v : Z) : string :=
  String (digitChar (v / 10)) (String (digitChar (v mod 10)) EmptyString).

Definition digits4 (v : Z) : string :=
  String (digitChar (v / 1000))
    (String (digitChar (v / 100 mod 10))
       (String (digitChar (v / 10 mod 10))
          (String (digitChar (v mod 10)) EmptyString))).

(** The strings of the form YYYY-MM-DD, each letter a decimal digit: the
    language of [^\d{4}-\d\d-\d\d$]. *)
Definition dateShape (c1 c2 c3 c4 c5 c6 c7 c8 : ascii) : string :=
  String c1 (String c2 (String c3 (String c4 (String "-"
    (String c5 (String c6 (String "-"
      (String c7 (String c8 EmptyString))))))))).

Definition matchesFormat (s : string) : Prop :=
  exists c1 c2 c3 c4 c5 c6 c7 c8,
    s = dateShape c1 c2 c3 c4 c5 c6 c7 c8
    /\ isDigit c1 = true /\ isDigit c2 = true /\ isDigit c3 = true
    /\ isDigit c4 = true /\ isDigit c5 = true /\ isDigit c6 = true
    /\ isDigit c7 = true /\ isDigit c8 = true.

(** One step of a lexicographic comparison: the first difference decides. *)
Definition lexi (c k : comparison) : comparison :=
  match c with Eq => k | Lt => Lt | Gt => Gt end.

(** The lengths of the given months of year [y], added up with
    [getDaysInMonth]. *)
Fixpoint sumDaysInMonths (y : Z) (months : list Z) : result Z :=
  match months with
  | [] => Ok 0
  | m :: rest =>
      n <- getDaysInMonth (Int y) (Int m) ;;
      total <- sumDaysInMonths y rest ;;
      Ok (n + total)
  end.


(** A tuple of integers as the tuple of numbers that [fromTuple] takes. *)
Definition tupleNumbers (t : Z * Z * Z) : number * number * number :=
  let '(y, m, d) := t in (Int y, Int m, Int d).

(** The reference date of [weekday], a Monday. *)
Definition referenceMonday : Datum := mkDatum 2019 8 26.

Definition firstDatum : Datum := mkDatum 0 1 1.
Definition lastDatum : Datum := mkDatum 9999 12 31.

(** [d.addDays(n).subtractDays(n)] *)
Definition addThenSubtract (d : Datum) (n : number) : result Datum :=
  d' <- addDays d n ;; subtractDays d' n.

(** The Datum instances that the operations hand out. *)
Inductive produced : Datum -> Prop :=
| produced_new year month day d :
    Datum_new year month day = Ok d -> produced d
| produced_fromString str d :
    fromString str = Ok d -> produced d
| produced_fromDate date d :
    fromDate date = Ok d -> produced d
| produced_fromTuple t d :
    fromTuple t = Ok d -> produced d
| produced_addDays this days d :
    addDays this days = Ok d -> produced d
| produced_subtractDays this days d :
    subtractDays this days = Ok d -> produced d
| produced_firstDayOfNextMonth current d :
    firstDayOfNextMonth current = Ok d -> produced d
| produced_lastDayOfPreviousMonth current d :
    lastDayOfPreviousMonth current = Ok d -> produced d.

(** * Verification *)

(** ** The tests of the repository *)

Example test_toString : toString (mkDatum 1988 9 11) = "1988-09-11"%string.
Proof. reflexivity. Qed.
Example test_fromString : fromString "1576-05-27" = Ok (mkDatum 1576 5 27).
Proof. reflexivity. Qed.
Example test_fromString2 : fromString "2019-02-30" = Throw DayExceedsMonth.
Proof. reflexivity. Qed.
Example test_pad :
  padWithLeadingZeros "22" 4 = "0022"%string
  /\ padWithLeadingZeros "3" 0 = "3"%string.
Proof. split; reflexivity. Qed.
Example test_add :
  addDays (mkDatum 2030 6 15) (Int 2499) = Ok (mkDatum 2037 4 18).
Proof. vm_compute. reflexivity. Qed.
Example test_sub :
  subtractDays (mkDatum 2037 4 18) (Int 2499) = Ok (mkDatum 2030 6 15).
Proof. vm_compute. reflexivity. Qed.
Example test_delta :
  deltaDays (mkDatum 2024 4 17) (mkDatum 2030 8 25) = Ok 2321.
Proof. vm_compute. reflexivity. Qed.
Example test_wd :
  weekday (mkDatum 1373 10 11) = Ok Monday
  /\ weekday (mkDatum 5159 4 22) = Ok Wednesday
  /\ weekday (mkDatum 3994 2 8) = Ok Tuesday.
Proof. vm_compute. auto. Qed.

(** ** Calendar tables *)

Ltac zbool :=
  repeat match goal with
    | |- context [(?a <=? ?b)%Z] => destruct (Z.leb_spec a b)
    | |- context [(?a <? ?b)%Z] => destruct (Z.ltb_spec a b)
    | |- context [(?a =? ?b)%Z] => destruct (Z.eqb_spec a b)
    | |- context [(?a >? ?b)%Z] => rewrite (Z.gtb_ltb a b)
    end.

Lemma month_cases (m : Z) :
  1 <= m <= 12 ->
  m = 1 \/ m = 2 \/ m = 3 \/ m = 4 \/ m = 5 \/ m = 6 \/
  m = 7 \/ m = 8 \/ m = 9 \/ m = 10 \/ m = 11 \/ m = 12.
Proof. lia. Qed.

Ltac month_split m H :=
  destruct (month_cases m H)
    as [?|[?|[?|[?|[?|[?|[?|[?|[?|[?|[?|?]]]]]]]]]]]; subst m.

Lemma assertIsYear_ok (y : Z) : 0 <= y <= 9999 -> assertIsYear (Int y) = Ok y.
Proof. intros H. unfold assertIsYear. zbool; simpl; trivial; lia. Qed.

Lemma assertIsYear_range (y : Z) :
  ~ 0 <= y <= 9999 -> assertIsYear (Int y) = Throw YearOutOfRange.
Proof. intros H. unfold assertIsYear. zbool; simpl; trivial; lia. Qed.

Lemma assertIsMonth_ok (m : Z) : 1 <= m <= 12 -> assertIsMonth (Int m) = Ok m.
Proof. intros H. unfold assertIsMonth. zbool; simpl; trivial; lia. Qed.

Lemma assertIsDay_ok (d : Z) : 1 <= d <= 31 -> assertIsDay (Int d) = Ok d.
Proof. intros H. unfold assertIsDay. zbool; simpl; trivial; lia. Qed.

Lemma isLeapYear_leapb (y : Z) :
  0 <= y <= 9999 -> isLeapYear (Int y) = Ok (leapb y).
Proof.
  intros H. unfold isLeapYear. rewrite assertIsYear_ok by assumption.
  simpl. unfold leapb. now rewrite !Z.rem_mod_nonneg by lia.
Qed.

Lemma leapb_Gregorian (y : Z) : leapb y = true <-> Gregorian_leap y.
Proof.
  unfold leapb, Gregorian_leap.
  rewrite orb_true_iff, andb_true_iff, negb_true_iff, Z.eqb_neq, !Z.eqb_eq.
  rewrite <- !Z.mod_divide by lia. tauto.
Qed.

Lemma getDaysInMonth_monthLength (y m : Z) :
  0 <= y <= 9999 -> 1 <= m <= 12 ->
  getDaysInMonth (Int y) (Int m) = Ok (monthLength y m).
Proof.
  intros Hy Hm. unfold getDaysInMonth.
  rewrite assertIsYear_ok, assertIsMonth_ok, isLeapYear_leapb by assumption.
  simpl. month_split m Hm; reflexivity.
Qed.

Lemma monthLength_bounds (y m : Z) : 28 <= monthLength y m <= 31.
Proof.
  unfold monthLength.
  destruct m as [|p|p]; try lia.
  do 4 (try destruct p as [p|p|]; try lia); destruct (leapb y); lia.
Qed.

Lemma validb_valid (d : Datum) : validb d = true <-> valid d.
Proof.
  unfold validb, valid. rewrite !andb_true_iff, !Z.leb_le. tauto.
Qed.

(** Validity of a date written out in numbers. *)
Ltac valid_date := apply validb_valid; reflexivity.

(** C7: on the years 0..9999 [isLeapYear] is the Gregorian rule, and
    on those years and the months 1..12 [getDaysInMonth] returns the entry
    of the table 31, 28/29, 31, 30, 31, 30, 31, 31, 30, 31, 30, 31, with 29
    for February exactly in the leap years. *)
Theorem leap_year_and_month_table (y : Z) (Hy : 0 <= y <= 9999) :
  (exists b, isLeapYear (Int y) = Ok b
             /\ (b = true <-> ((4 | y) /\ ~ (100 | y)) \/ (400 | y)))
  /\ (forall m, 1 <= m <= 12 ->
      exists feb,
        getDaysInMonth (Int y) (Int m)
        = Ok (nth (Z.to_nat (m - 1))
                  [31; feb; 31; 30; 31; 30; 31; 31; 30; 31; 30; 31] 0)
        /\ (feb = 29 \/ feb = 28)
        /\ (feb = 29 <-> isLeapYear (Int y) = Ok true)).
Proof.
  split.
  - exists (leapb y). split.
    + now apply isLeapYear_leapb.
    + apply leapb_Gregorian.
  - intros m Hm. exists (if leapb y then 29 else 28).
    rewrite getDaysInMonth_monthLength, isLeapYear_leapb by assumption.
    split; [ month_split m Hm; reflexivity | ].
    destruct (leapb y); split; auto; split; intros E;
      try reflexivity; try discriminate; try lia.
Qed.

Lemma leap_year_and_month_table_witness :
  (exists b, isLeapYear (Int 2016) = Ok b
             /\ (b = true <-> ((4 | 2016) /\ ~ (100 | 2016)) \/ (400 | 2016)))
  /\ (forall m, 1 <= m <= 12 ->
      exists feb,
        getDaysInMonth (Int 2016) (Int m)
        = Ok (nth (Z.to_nat (m - 1))
                  [31; feb; 31; 30; 31; 30; 31; 31; 30; 31; 30; 31] 0)
        /\ (feb = 29 \/ feb = 28)
        /\ (feb = 29 <-> isLeapYear (Int 2016) = Ok true)).
Proof. apply (leap_year_and_month_table 2016). lia. Defined.

(** ** The constructor *)

Lemma Datum_new_valid (y m d : Z) :
  valid (mkDatum y m d) ->
  Datum_new (Int y) (Int m) (Int d) = Ok (mkDatum y m d).
Proof.
  intros (Hy & Hm & Hd). simpl in *. unfold Datum_new.
  pose proof (monthLength_bounds y m).
  rewrite assertIsYear_ok, assertIsMonth_ok, assertIsDay_ok,
    getDaysInMonth_monthLength by lia.
  simpl. zbool; trivial; lia.
Qed.

Lemma bind_Ok_inv {A B : Type} (r : result A) (k : A -> result B) (b : B) :
  (x <- r ;; k x) = Ok b -> exists a, r = Ok a /\ k a = Ok b.
Proof. destruct r; simpl; intros E; try discriminate. eauto. Qed.

Lemma assertIsYear_inv (n : number) (y : Z) :
  assertIsYear n = Ok y -> n = Int y /\ 0 <= y <= 9999.
Proof.
  destruct n as [z|]; simpl; [|discriminate].
  zbool; simpl; intros E; inversion E; subst; split; trivial; lia.
Qed.

Lemma assertIsMonth_inv (n : number) (m : Z) :
  assertIsMonth n = Ok m -> n = Int m /\ 1 <= m <= 12.
Proof.
  destruct n as [z|]; simpl; [|discriminate].
  zbool; simpl; intros E; inversion E; subst; split; trivial; lia.
Qed.

Lemma assertIsDay_inv (n : number) (d : Z) :
  assertIsDay n = Ok d -> n = Int d /\ 1 <= d <= 31.
Proof.
  destruct n as [z|]; simpl; [|discriminate].
  zbool; simpl; intros E; inversion E; subst; split; trivial; lia.
Qed.

(** Whatever the constructor returns is a calendar-valid date made of the
    three arguments. *)
Lemma Datum_new_inv (ny nm nd : number) (D : Datum) :
  Datum_new ny nm nd = Ok D ->
  valid D /\ ny = Int (year D) /\ nm = Int (month D) /\ nd = Int (day D).
Proof.
  unfold Datum_new. intros E.
  apply bind_Ok_inv in E as (y & Ey & E). apply assertIsYear_inv in Ey as (-> & Hy).
  apply bind_Ok_inv in E as (m & Em & E). apply assertIsMonth_inv in Em as (-> & Hm).
  apply bind_Ok_inv in E as (d & Ed & E). apply assertIsDay_inv in Ed as (-> & Hd).
  rewrite getDaysInMonth_monthLength in E by assumption. simpl in E.
  revert E. zbool; intros E; inversion E; subst D; simpl.
  unfold valid; simpl. repeat split; trivial; lia.
Qed.

Lemma Datum_new_valid_result (ny nm nd : number) (D : Datum) :
  Datum_new ny nm nd = Ok D -> valid D.
Proof. intros E. now apply Datum_new_inv in E. Qed.

Lemma firstDayOfNextMonth_valid_result (current D : Datum) :
  firstDayOfNextMonth current = Ok D -> valid D.
Proof.
  unfold firstDayOfNextMonth.
  destruct (month current =? 12); apply Datum_new_valid_result.
Qed.

Lemma lastDayOfPreviousMonth_valid_result (current D : Datum) :
  lastDayOfPreviousMonth current = Ok D -> valid D.
Proof.
  unfold lastDayOfPreviousMonth.
  destruct (month current =? 1); intros E;
    apply bind_Ok_inv in E as (l & _ & E);
    now apply Datum_new_valid_result in E.
Qed.

Lemma addDays_loop_valid_result (fuel : nat) :
  forall (n : Z) (current D : Datum),
    addDays_loop fuel n current = Ok D -> valid D.
Proof.
  induction fuel as [|fuel IH]; intros n current D; simpl; [discriminate|].
  intros E. apply bind_Ok_inv in E as (stride & _ & E).
  destruct (n <? stride).
  - now apply Datum_new_valid_result in E.
  - apply bind_Ok_inv in E as (next & _ & E). now apply IH in E.
Qed.

Lemma subtractDays_loop_valid_result (fuel : nat) :
  forall (n : Z) (current D : Datum),
    subtractDays_loop fuel n current = Ok D -> valid D.
Proof.
  induction fuel as [|fuel IH]; intros n current D; simpl; [discriminate|].
  destruct (n <? day current); intros E.
  - now apply Datum_new_valid_result in E.
  - apply bind_Ok_inv in E as (previous & _ & E). now apply IH in E.
Qed.

(** C1: every Datum that an operation hands out -- the constructor,
    [fromString], [fromDate], [fromTuple], [addDays], [subtractDays], and
    the dates that the loops of [addDays], [deltaDays] and [subtractDays]
    step through -- is a calendar-valid date: year in 0..9999, month in
    1..12, day between 1 and the length of that month in that year. *)
Theorem produced_valid (d : Datum) (H : produced d) :
  0 <= year d <= 9999
  /\ 1 <= month d <= 12
  /\ 1 <= day d
  /\ getDaysInMonth (Int (year d)) (Int (month d)) = Ok (monthLength (year d) (month d))
  /\ day d <= monthLength (year d) (month d).
Proof.
  assert (V : valid d).
  { destruct H as [ny nm nd d E | str d E | date d E | t d E
                  | this days d E | this days d E | current d E | current d E].
    - now apply Datum_new_valid_result in E.
    - unfold fromString in E.
      destruct (negb _); [discriminate|].
      destruct (match_REGEX str) as [[[g1 g2] g3]|]; [|discriminate].
      now apply Datum_new_valid_result in E.
    - now apply Datum_new_valid_result in E.
    - destruct t as [[ny nm] nd]. now apply Datum_new_valid_result in E.
    - unfold addDays in E. destruct days as [n|]; [|discriminate].
      destruct (0 <=? n); [|discriminate].
      now apply addDays_loop_valid_result in E.
    - unfold subtractDays in E. destruct days as [n|]; [|discriminate].
      destruct (0 >? n); [discriminate|].
      now apply subtractDays_loop_valid_result in E.
    - now apply firstDayOfNextMonth_valid_result in E.
    - now apply lastDayOfPreviousMonth_valid_result in E. }
  destruct V as (Hy & Hm & Hd).
  rewrite getDaysInMonth_monthLength by assumption. tauto.
Qed.

Lemma produced_valid_witness :
  0 <= 2029 <= 9999 /\ 1 <= 1 <= 12 /\ 1 <= 1
  /\ getDaysInMonth (Int 2029) (Int 1) = Ok (monthLength 2029 1)
  /\ 1 <= monthLength 2029 1.
Proof.
  apply (produced_valid (mkDatum 2029 1 1)).
  apply (produced_addDays (mkDatum 2028 12 30) (Int 2)).
  vm_compute. reflexivity.
Defined.

(** ** The day number *)

Arguments daysBeforeYear : simpl never.

Lemma daysBeforeYear_S (k : nat) :
  daysBeforeYear (S k) = daysBeforeYear k + yearLength (Z.of_nat k).
Proof. reflexivity. Qed.

Lemma yearLength_pos (y : Z) : 365 <= yearLength y <= 366.
Proof. unfold yearLength. destruct (leapb y); lia. Qed.

Lemma yearStart_succ (y : Z) :
  0 <= y ->
  daysBeforeYear (Z.to_nat (y + 1))
  = daysBeforeYear (Z.to_nat y) + yearLength y.
Proof.
  intros H. replace (Z.to_nat (y + 1)) with (S (Z.to_nat y)) by lia.
  rewrite daysBeforeYear_S. now rewrite Z2Nat.id.
Qed.

Lemma daysBeforeYear_mono (a b : nat) :
  (a < b)%nat ->
  daysBeforeYear a + yearLength (Z.of_nat a) <= daysBeforeYear b.
Proof.
  induction 1 as [|b Hle IH].
  - rewrite daysBeforeYear_S. lia.
  - rewrite daysBeforeYear_S. pose proof (yearLength_pos (Z.of_nat b)). lia.
Qed.

Lemma yearStart_lt (y1 y2 : Z) :
  0 <= y1 < y2 ->
  daysBeforeYear (Z.to_nat y1) + yearLength y1
  <= daysBeforeYear (Z.to_nat y2).
Proof.
  intros H. pose proof (daysBeforeYear_mono (Z.to_nat y1) (Z.to_nat y2)) as M.
  rewrite Z2Nat.id in M by lia. apply M. lia.
Qed.

Lemma daysBeforeYear_nonneg (k : nat) : 0 <= daysBeforeYear k.
Proof.
  induction k as [|k IH]; [reflexivity|].
  rewrite daysBeforeYear_S. pose proof (yearLength_pos (Z.of_nat k)). lia.
Qed.

(** The months of a year: each starts where the one before it ends, and
    the twelve of them fill the year. *)
Lemma monthStart_succ (y m : Z) :
  1 <= m <= 11 ->
  daysBeforeMonth y (Z.to_nat (m + 1))
  = daysBeforeMonth y (Z.to_nat m) + monthLength y m.
Proof.
  intros H. assert (H' : 1 <= m <= 12) by lia.
  month_split m H'; try lia;
    match goal with
    | |- context [Z.to_nat (?a + 1)] =>
        let v := eval compute in (Z.to_nat (a + 1)) in
        change (Z.to_nat (a + 1)) with v
    end;
    cbv -[Z.add Z.sub Z.le Z.lt leapb]; destruct (leapb y); lia.
Qed.

Lemma monthStart_december (y : Z) :
  daysBeforeMonth y (Z.to_nat 12) + 31 = yearLength y.
Proof.
  cbv -[Z.add Z.sub Z.le Z.lt leapb]. destruct (leapb y); lia.
Qed.

Lemma monthStart_january (y : Z) : daysBeforeMonth y (Z.to_nat 1) = 0.
Proof. reflexivity. Qed.

Lemma monthStart_lt (y m1 m2 : Z) :
  1 <= m1 -> m1 < m2 -> m2 <= 12 ->
  daysBeforeMonth y (Z.to_nat m1) + monthLength y m1
  <= daysBeforeMonth y (Z.to_nat m2).
Proof.
  intros H1 H12 H2.
  assert (G : forall k : nat,
             1 <= m1 + 1 + Z.of_nat k <= 12 ->
             daysBeforeMonth y (Z.to_nat m1) + monthLength y m1
             <= daysBeforeMonth y (Z.to_nat (m1 + 1 + Z.of_nat k))).
  { induction k as [|k IH]; intros Hk.
    - rewrite Z.add_0_r, monthStart_succ by lia. lia.
    - replace (m1 + 1 + Z.of_nat (S k)) with (m1 + 1 + Z.of_nat k + 1) by lia.
      rewrite monthStart_succ by lia.
      pose proof (monthLength_bounds y (m1 + 1 + Z.of_nat k)).
      specialize (IH ltac:(lia)). lia. }
  specialize (G (Z.to_nat (m2 - m1 - 1))).
  replace (m1 + 1 + Z.of_nat (Z.to_nat (m2 - m1 - 1))) with m2 in G by lia.
  apply G. lia.
Qed.

Lemma monthStart_nonneg (y m : Z) :
  1 <= m <= 12 -> 0 <= daysBeforeMonth y (Z.to_nat m).
Proof.
  intros H. destruct (Z.eq_dec m 1) as [->|N]; [now rewrite monthStart_january|].
  pose proof (monthStart_lt y 1 m ltac:(lia) ltac:(lia) ltac:(lia)) as L.
  rewrite monthStart_january in L. pose proof (monthLength_bounds y 1). lia.
Qed.

Lemma monthEnd_le_year (y m : Z) :
  1 <= m <= 12 ->
  daysBeforeMonth y (Z.to_nat m) + monthLength y m <= yearLength y.
Proof.
  intros H. destruct (Z.eq_dec m 12) as [->|N].
  - rewrite <- monthStart_december. unfold monthLength. lia.
  - pose proof (monthStart_lt y m 12 ltac:(lia) ltac:(lia) ltac:(lia)).
    pose proof (monthStart_december y). lia.
Qed.

Lemma dayNumber_eq (y m d : Z) :
  dayNumber (mkDatum y m d)
  = daysBeforeYear (Z.to_nat y) + daysBeforeMonth y (Z.to_nat m) + (d - 1).
Proof. reflexivity. Qed.

Lemma isAfter_isBefore (a b : Datum) : isAfter a b = isBefore b a.
Proof.
  unfold isAfter, isBefore. rewrite !Z.gtb_ltb.
  rewrite (Z.eqb_sym (year a)), (Z.eqb_sym (month a)). reflexivity.
Qed.

Lemma isBefore_iff (a b : Datum) :
  isBefore a b = true <->
  year a < year b
  \/ (year a = year b /\ month a < month b)
  \/ (year a = year b /\ month a = month b /\ day a < day b).
Proof.
  unfold isBefore.
  rewrite !orb_true_iff, !andb_true_iff, !Z.ltb_lt, !Z.eqb_eq. tauto.
Qed.

Lemma isEqual_iff (a b : Datum) : isEqual a b = true <-> a = b.
Proof.
  unfold isEqual. rewrite !andb_true_iff, !Z.eqb_eq.
  destruct a, b; simpl. split.
  - intros [[-> ->] ->]. reflexivity.
  - intros E. inversion E. auto.
Qed.

Lemma trichotomy (a b : Datum) :
  isBefore a b = true \/ a = b \/ isBefore b a = true.
Proof.
  rewrite !isBefore_iff. destruct a as [y1 m1 d1], b as [y2 m2 d2]; simpl.
  destruct (Z.lt_trichotomy y1 y2) as [?|[->|?]]; auto.
  destruct (Z.lt_trichotomy m1 m2) as [?|[->|?]]; auto 6.
  destruct (Z.lt_trichotomy d1 d2) as [?|[->|?]]; auto 8.
Qed.

(** The day number orders the valid dates as [isBefore] does. *)
Lemma dayNumber_lt (a b : Datum) :
  valid a -> valid b -> isBefore a b = true -> dayNumber a < dayNumber b.
Proof.
  intros (Hya & Hma & Hda) (Hyb & Hmb & Hdb) H. apply isBefore_iff in H.
  destruct a as [y1 m1 d1], b as [y2 m2 d2]; simpl in *.
  rewrite !dayNumber_eq.
  pose proof (monthStart_nonneg y2 m2 Hmb).
  pose proof (monthEnd_le_year y1 m1 Hma).
  destruct H as [H|[(-> & H)|(-> & -> & H)]].
  - pose proof (yearStart_lt y1 y2 ltac:(lia)). lia.
  - pose proof (monthStart_lt y2 m1 m2 ltac:(lia) H ltac:(lia)). lia.
  - lia.
Qed.

Lemma dayNumber_inj (a b : Datum) :
  valid a -> valid b -> dayNumber a = dayNumber b -> a = b.
Proof.
  intros Va Vb E. destruct (trichotomy a b) as [H|[H|H]]; trivial.
  - pose proof (dayNumber_lt a b Va Vb H). lia.
  - pose proof (dayNumber_lt b a Vb Va H). lia.
Qed.

Lemma dayNumber_isBefore (a b : Datum) :
  valid a -> valid b -> (isBefore a b = true <-> dayNumber a < dayNumber b).
Proof.
  intros Va Vb. split; [now apply dayNumber_lt|].
  intros L. destruct (trichotomy a b) as [H|[H|H]]; trivial.
  - subst. lia.
  - pose proof (dayNumber_lt b a Vb Va H). lia.
Qed.

Lemma dayNumber_first : dayNumber firstDatum = 0.
Proof. reflexivity. Qed.

Lemma yearStart_0 : daysBeforeYear (Z.to_nat 0) = 0.
Proof. reflexivity. Qed.

(** From here on the day number is used through the lemmas above only. *)
#[global] Opaque daysBeforeYear.

Lemma dayNumber_last :
  dayNumber lastDatum = daysBeforeYear (Z.to_nat 9999) + 364.
Proof.
  unfold lastDatum. rewrite dayNumber_eq.
  pose proof (monthStart_december 9999) as E.
  change (yearLength 9999) with 365 in E. lia.
Qed.

Lemma dayNumber_range (d : Datum) :
  valid d -> 0 <= dayNumber d <= dayNumber lastDatum.
Proof.
  intros V. split.
  - destruct V as (Hy & Hm & Hd). unfold dayNumber.
    pose proof (daysBeforeYear_nonneg (Z.to_nat (year d))).
    pose proof (monthStart_nonneg (year d) (month d) Hm). lia.
  - assert (Vl : valid lastDatum) by (unfold valid; simpl; lia).
    destruct (trichotomy d lastDatum) as [H|[H|H]].
    + pose proof (dayNumber_lt _ _ V Vl H). lia.
    + subst. lia.
    + apply isBefore_iff in H. simpl in H.
      destruct V as (Hy & Hm & Hd).
      pose proof (monthLength_bounds (year d) (month d)). lia.
Qed.

(** ** Walking month by month *)

Lemma daysUntilFirstDayOfNextMonth_valid (current : Datum) :
  valid current ->
  daysUntilFirstDayOfNextMonth current
  = Ok (monthLength (year current) (month current) - day current + 1).
Proof.
  intros (Hy & Hm & Hd). unfold daysUntilFirstDayOfNextMonth.
  now rewrite getDaysInMonth_monthLength.
Qed.

Lemma firstDayOfNextMonth_last (current : Datum) :
  year current = 9999 -> month current = 12 ->
  firstDayOfNextMonth current = Throw YearOutOfRange.
Proof.
  intros Ey Em. unfold firstDayOfNextMonth. rewrite Ey, Em. reflexivity.
Qed.

Lemma firstDayOfNextMonth_valid (current : Datum) :
  valid current ->
  ~ (year current = 9999 /\ month current = 12) ->
  exists next,
    firstDayOfNextMonth current = Ok next
    /\ valid next
    /\ day next = 1
    /\ 12 * year next + month next = 12 * year current + month current + 1
    /\ dayNumber next
       = dayNumber current
         + (monthLength (year current) (month current) - day current + 1).
Proof.
  intros (Hy & Hm & Hd) N. unfold firstDayOfNextMonth.
  destruct current as [y m d]; cbn [year month day] in *.
  destruct (Z.eqb_spec m 12) as [->|Nm].
  - assert (V : valid (mkDatum (y + 1) 1 1)).
    { unfold valid; simpl. unfold monthLength. lia. }
    exists (mkDatum (y + 1) 1 1). rewrite Datum_new_valid by assumption.
    split; [reflexivity|]. split; [exact V|].
    split; [reflexivity|]. split; [cbn [year month day]; lia|].
    rewrite !dayNumber_eq, yearStart_succ, monthStart_january by lia.
    pose proof (monthStart_december y). unfold monthLength. lia.
  - assert (V : valid (mkDatum y (m + 1) 1)).
    { unfold valid; simpl. pose proof (monthLength_bounds y (m + 1)). lia. }
    exists (mkDatum y (m + 1) 1). rewrite Datum_new_valid by assumption.
    split; [reflexivity|]. split; [exact V|].
    split; [reflexivity|]. split; [cbn [year month day]; lia|].
    rewrite !dayNumber_eq, monthStart_succ by lia. lia.
Qed.

(** The loop of [addDays]: from a valid [current] it returns the date
    [daysToAdd] days later when there is one up to 9999-12-31, and fails
    on the year check otherwise. *)
Lemma addDays_loop_spec (fuel : nat) :
  forall (n : Z) (current : Datum),
    valid current -> 0 <= n -> (monthsAhead current <= fuel)%nat ->
    (dayNumber current + n <= dayNumber lastDatum ->
     exists D, addDays_loop fuel n current = Ok D
               /\ valid D /\ dayNumber D = dayNumber current + n)
    /\ (dayNumber lastDatum < dayNumber current + n ->
        addDays_loop fuel n current = Throw YearOutOfRange).
Proof.
  induction fuel as [|fuel IH]; intros n current V Hn Hfuel.
  { unfold monthsAhead in Hfuel. lia. }
  cbn [addDays_loop].
  rewrite daysUntilFirstDayOfNextMonth_valid by assumption. cbn [bind].
  pose proof V as (Hy & Hm & Hd).
  set (len := monthLength (year current) (month current)) in *.
  destruct (Z.ltb_spec n (len - day current + 1)) as [Hlt|Hge].
  - (* the target day is in the current month *)
    assert (V' : valid (mkDatum (year current) (month current)
                                (day current + n))).
    { unfold valid; simpl. fold len. lia. }
    rewrite Datum_new_valid by assumption.
    assert (E : dayNumber (mkDatum (year current) (month current)
                                   (day current + n))
                = dayNumber current + n).
    { rewrite dayNumber_eq. unfold dayNumber. lia. }
    split.
    + intros _. eauto.
    + intros L. pose proof (dayNumber_range _ V'). lia.
  - (* move to the first day of the next month *)
    destruct (Z.eq_dec (year current) 9999) as [Ey|Ny];
      [destruct (Z.eq_dec (month current) 12) as [Em|Nm]|].
    + rewrite firstDayOfNextMonth_last by assumption. cbn [bind].
      split; [|reflexivity].
      intros L. exfalso. rewrite dayNumber_last in L.
      unfold dayNumber in L. rewrite Ey, Em in L.
      pose proof (monthStart_december 9999) as E.
      change (yearLength 9999) with 365 in E.
      unfold len in Hge. rewrite Ey, Em in Hge.
      change (monthLength 9999 12) with 31 in Hge. lia.
    + destruct (firstDayOfNextMonth_valid current V ltac:(lia))
        as (next & -> & Vn & _ & Hord & Hnum).
      cbn [bind]. fold len in Hnum.
      destruct (IH (n - (len - day current + 1)) next Vn ltac:(lia)) as [A B].
      { unfold monthsAhead in *. lia. }
      split; intros L.
      * destruct (A ltac:(lia)) as (D & -> & VD & ED).
        exists D. split; [reflexivity|]. split; [exact VD|]. lia.
      * apply B. lia.
    + destruct (firstDayOfNextMonth_valid current V ltac:(lia))
        as (next & -> & Vn & _ & Hord & Hnum).
      cbn [bind]. fold len in Hnum.
      destruct (IH (n - (len - day current + 1)) next Vn ltac:(lia)) as [A B].
      { unfold monthsAhead in *. lia. }
      split; intros L.
      * destruct (A ltac:(lia)) as (D & -> & VD & ED).
        exists D. split; [reflexivity|]. split; [exact VD|]. lia.
      * apply B. lia.
Qed.

Lemma addDays_spec (d : Datum) (n : Z) :
  valid d -> 0 <= n ->
  (dayNumber d + n <= dayNumber lastDatum ->
   exists D, addDays d (Int n) = Ok D
             /\ valid D /\ dayNumber D = dayNumber d + n)
  /\ (dayNumber lastDatum < dayNumber d + n ->
      addDays d (Int n) = Throw YearOutOfRange).
Proof.
  intros V Hn. unfold addDays.
  destruct (Z.leb_spec 0 n); [|lia].
  now apply addDays_loop_spec.
Qed.

(** Every number from 0 to that of 9999-12-31 is the number of a valid
    date: with [dayNumber_isBefore], the day number of a date is the count
    of the dates before it. *)
Lemma dayNumber_onto (k : Z) :
  0 <= k <= dayNumber lastDatum -> exists d, valid d /\ dayNumber d = k.
Proof.
  intros H.
  assert (V : valid firstDatum) by valid_date.
  destruct (addDays_spec firstDatum k V ltac:(lia)) as [A _].
  rewrite dayNumber_first in A.
  destruct (A ltac:(lia)) as (D & _ & VD & ND). exists D. split; [exact VD | lia].
Qed.

Lemma lastDayOfPreviousMonth_first (current : Datum) :
  year current = 0 -> month current = 1 ->
  lastDayOfPreviousMonth current = Throw YearOutOfRange.
Proof.
  intros Ey Em. unfold lastDayOfPreviousMonth. rewrite Ey, Em. reflexivity.
Qed.

Lemma lastDayOfPreviousMonth_valid (current : Datum) :
  valid current ->
  ~ (year current = 0 /\ month current = 1) ->
  exists previous,
    lastDayOfPreviousMonth current = Ok previous
    /\ valid previous
    /\ 12 * year previous + month previous
       = 12 * year current + month current - 1
    /\ dayNumber previous = dayNumber current - day current.
Proof.
  intros (Hy & Hm & Hd) N. unfold lastDayOfPreviousMonth.
  destruct current as [y m d]; cbn [year month day] in *.
  destruct (Z.eqb_spec m 1) as [->|Nm].
  - rewrite getDaysInMonth_monthLength by lia. cbn [bind].
    change (monthLength (y - 1) 12) with 31.
    assert (V : valid (mkDatum (y - 1) 12 31)).
    { unfold valid; cbn [year month day].
      change (monthLength (y - 1) 12) with 31. lia. }
    exists (mkDatum (y - 1) 12 31). rewrite Datum_new_valid by assumption.
    split; [reflexivity|]. split; [exact V|].
    split; [cbn [year month day]; lia|].
    rewrite !dayNumber_eq, monthStart_january.
    pose proof (yearStart_succ (y - 1) ltac:(lia)) as E.
    replace (y - 1 + 1) with y in E by lia.
    pose proof (monthStart_december (y - 1)). lia.
  - rewrite getDaysInMonth_monthLength by lia. cbn [bind].
    pose proof (monthLength_bounds y (m - 1)).
    assert (V : valid (mkDatum y (m - 1) (monthLength y (m - 1)))).
    { unfold valid; cbn [year month day]. lia. }
    exists (mkDatum y (m - 1) (monthLength y (m - 1))).
    rewrite Datum_new_valid by assumption.
    split; [reflexivity|]. split; [exact V|].
    split; [cbn [year month day]; lia|].
    rewrite !dayNumber_eq.
    pose proof (monthStart_succ y (m - 1) ltac:(lia)) as E.
    replace (m - 1 + 1) with m in E by lia. lia.
Qed.

(** The loop of [subtractDays]: from a valid [current] it returns the
    date [daysToSubtract] days earlier when there is one from 0000-01-01
    on, and fails on the year check otherwise. *)
Lemma subtractDays_loop_spec (fuel : nat) :
  forall (n : Z) (current : Datum),
    valid current -> 0 <= n -> (monthsBehind current <= fuel)%nat ->
    (n <= dayNumber current ->
     exists D, subtractDays_loop fuel n current = Ok D
               /\ valid D /\ dayNumber D = dayNumber current - n)
    /\ (dayNumber current < n ->
        subtractDays_loop fuel n current = Throw YearOutOfRange).
Proof.
  induction fuel as [|fuel IH]; intros n current V Hn Hfuel.
  { unfold monthsBehind in Hfuel. lia. }
  cbn [subtractDays_loop].
  pose proof V as (Hy & Hm & Hd).
  pose proof (dayNumber_range _ V) as Hr.
  destruct (Z.ltb_spec n (day current)) as [Hlt|Hge].
  - assert (V' : valid (mkDatum (year current) (month current)
                                (day current - n))).
    { unfold valid; cbn [year month day]. lia. }
    rewrite Datum_new_valid by assumption.
    assert (E : dayNumber (mkDatum (year current) (month current)
                                   (day current - n))
                = dayNumber current - n).
    { rewrite dayNumber_eq. unfold dayNumber. lia. }
    split.
    + intros _. eauto.
    + intros L. pose proof (dayNumber_range _ V'). lia.
  - destruct (Z.eq_dec (year current) 0) as [Ey|Ny];
      [destruct (Z.eq_dec (month current) 1) as [Em|Nm]|].
    + rewrite lastDayOfPreviousMonth_first by assumption. cbn [bind].
      split; [|reflexivity].
      intros L. exfalso. unfold dayNumber in L. rewrite Ey, Em in L.
      rewrite yearStart_0, monthStart_january in L. lia.
    + destruct (lastDayOfPreviousMonth_valid current V ltac:(lia))
        as (previous & -> & Vp & Hord & Hnum).
      cbn [bind].
      destruct (IH (n - day current) previous Vp ltac:(lia)) as [A B].
      { unfold monthsBehind in *. lia. }
      split; intros L.
      * destruct (A ltac:(lia)) as (D & -> & VD & ED).
        exists D. split; [reflexivity|]. split; [exact VD|]. lia.
      * apply B. lia.
    + destruct (lastDayOfPreviousMonth_valid current V ltac:(lia))
        as (previous & -> & Vp & Hord & Hnum).
      cbn [bind].
      destruct (IH (n - day current) previous Vp ltac:(lia)) as [A B].
      { unfold monthsBehind in *. lia. }
      split; intros L.
      * destruct (A ltac:(lia)) as (D & -> & VD & ED).
        exists D. split; [reflexivity|]. split; [exact VD|]. lia.
      * apply B. lia.
Qed.

Lemma subtractDays_spec (d : Datum) (n : Z) :
  valid d -> 0 <= n ->
  (n <= dayNumber d ->
   exists D, subtractDays d (Int n) = Ok D
             /\ valid D /\ dayNumber D = dayNumber d - n)
  /\ (dayNumber d < n -> subtractDays d (Int n) = Throw YearOutOfRange).
Proof.
  intros V Hn. unfold subtractDays. rewrite Z.gtb_ltb.
  destruct (Z.ltb_spec n 0); [lia|].
  now apply subtractDays_loop_spec.
Qed.

(** The loop of [deltaDays]: from a valid [current] not after [until] it
    adds to the counter the days from [current] to [until]. *)
Lemma deltaDays_loop_spec (fuel : nat) :
  forall (acc : Z) (current until : Datum),
    valid current -> valid until ->
    dayNumber current <= dayNumber until ->
    (monthsAhead current <= fuel)%nat ->
    deltaDays_loop fuel acc current until
    = Ok (acc + (dayNumber until - dayNumber current)).
Proof.
  induction fuel as [|fuel IH]; intros acc current until V Vu Hle Hfuel.
  { unfold monthsAhead in Hfuel. lia. }
  cbn [deltaDays_loop].
  pose proof V as (Hy & Hm & Hd). pose proof Vu as (Hyu & Hmu & Hdu).
  destruct (Z.eqb_spec (year current) (year until)) as [Ey|Ny];
    [destruct (Z.eqb_spec (month current) (month until)) as [Em|Nm]|];
    cbn [andb].
  - (* the last month *)
    f_equal. unfold dayNumber in *. rewrite Ey, Em in *. lia.
  - assert (B : isBefore current until = true).
    { destruct (trichotomy current until) as [H|[H|H]]; trivial.
      - subst. lia.
      - pose proof (dayNumber_lt _ _ Vu V H). lia. }
    apply isBefore_iff in B.
    rewrite daysUntilFirstDayOfNextMonth_valid by assumption. cbn [bind].
    destruct (firstDayOfNextMonth_valid current V ltac:(lia))
      as (next & -> & Vn & Hday & Hord & Hnum).
    cbn [bind]. rewrite IH; trivial.
    + f_equal. lia.
    + destruct (trichotomy next until) as [H|[H|H]].
      * pose proof (dayNumber_lt _ _ Vn Vu H). lia.
      * subst. lia.
      * apply isBefore_iff in H. destruct Vn as (? & ? & ?). lia.
    + unfold monthsAhead in *. lia.
  - assert (B : isBefore current until = true).
    { destruct (trichotomy current until) as [H|[H|H]]; trivial.
      - subst. lia.
      - pose proof (dayNumber_lt _ _ Vu V H). lia. }
    apply isBefore_iff in B.
    rewrite daysUntilFirstDayOfNextMonth_valid by assumption. cbn [bind].
    destruct (firstDayOfNextMonth_valid current V ltac:(lia))
      as (next & -> & Vn & Hday & Hord & Hnum).
    cbn [bind]. rewrite IH; trivial.
    + f_equal. lia.
    + destruct (trichotomy next until) as [H|[H|H]].
      * pose proof (dayNumber_lt _ _ Vn Vu H). lia.
      * subst. lia.
      * apply isBefore_iff in H. destruct Vn as (? & ? & ?). lia.
    + unfold monthsAhead in *. lia.
Qed.

(** ** Adding, subtracting, and the distance between two dates *)

Lemma isBefore_asym (a b : Datum) :
  isBefore a b = true -> isBefore b a = false.
Proof.
  intros H. destruct (isBefore b a) eqn:E; trivial.
  apply isBefore_iff in H, E. lia.
Qed.

Lemma isBefore_irrefl (a : Datum) : isBefore a a = false.
Proof.
  destruct (isBefore a a) eqn:E; trivial. apply isBefore_iff in E. lia.
Qed.

Lemma isEqual_false (a b : Datum) : a <> b -> isEqual a b = false.
Proof.
  intros N. destruct (isEqual a b) eqn:E; trivial.
  apply isEqual_iff in E. contradiction.
Qed.

Lemma isBefore_neq (a b : Datum) : isBefore a b = true -> a <> b.
Proof. intros H ->. rewrite isBefore_irrefl in H. discriminate. Qed.

Lemma deltaDays_sym (a b : Datum) : deltaDays a b = deltaDays b a.
Proof.
  unfold deltaDays. rewrite !isAfter_isBefore.
  destruct (trichotomy a b) as [H|[->|H]]; trivial.
  - pose proof (isBefore_neq _ _ H) as N.
    rewrite (isEqual_false a b), (isEqual_false b a) by congruence.
    now rewrite H, (isBefore_asym _ _ H).
  - pose proof (isBefore_neq _ _ H) as N.
    rewrite (isEqual_false a b), (isEqual_false b a) by congruence.
    now rewrite H, (isBefore_asym _ _ H).
Qed.

Lemma deltaDays_before (a b : Datum) :
  valid a -> valid b -> isBefore a b = true ->
  deltaDays a b = Ok (dayNumber b - dayNumber a).
Proof.
  intros Va Vb H. unfold deltaDays. rewrite isAfter_isBefore.
  pose proof (isBefore_neq _ _ H) as N.
  rewrite (isEqual_false a b), H, (isBefore_asym _ _ H) by assumption.
  rewrite (isEqual_false b a) by congruence.
  pose proof (dayNumber_lt _ _ Va Vb H).
  rewrite deltaDays_loop_spec; trivial; lia.
Qed.

(** [deltaDays] is the distance between the day numbers. *)
Lemma deltaDays_spec (a b : Datum) :
  valid a -> valid b ->
  deltaDays a b = Ok (Z.abs (dayNumber b - dayNumber a)).
Proof.
  intros Va Vb. destruct (trichotomy a b) as [H|[->|H]].
  - pose proof (dayNumber_lt _ _ Va Vb H).
    rewrite deltaDays_before by assumption. f_equal. lia.
  - unfold deltaDays. rewrite (proj2 (isEqual_iff b b) eq_refl).
    f_equal. lia.
  - pose proof (dayNumber_lt _ _ Vb Va H).
    rewrite deltaDays_sym, deltaDays_before by assumption. f_equal. lia.
Qed.

(** C3, as amended: for a valid date [d] and [n >= 0] for which
    [d.addDays(n)] returns a date, [d.addDays(n).subtractDays(n)] returns
    [d]. *)
Theorem addDays_subtractDays_inverse (d : Datum) (n : Z)
        (V : valid d) (Hn : 0 <= n)
        (Hadd : exists d', addDays d (Int n) = Ok d') :
  addThenSubtract d (Int n) = Ok d.
Proof.
  destruct Hadd as (d' & E). unfold addThenSubtract. rewrite E. cbn [bind].
  destruct (addDays_spec d n V Hn) as [A B].
  destruct (Z.le_gt_cases (dayNumber d + n) (dayNumber lastDatum)) as [L|L].
  - destruct (A L) as (D & ED & VD & ND).
    assert (D = d') by congruence. subst D.
    pose proof (dayNumber_range _ V).
    destruct (subtractDays_spec d' n VD Hn) as [S _].
    destruct (S ltac:(lia)) as (D & -> & VD' & ND').
    f_equal. apply dayNumber_inj; trivial. lia.
  - rewrite (B L) in E. discriminate E.
Qed.

Lemma addDays_subtractDays_inverse_witness :
  addThenSubtract (mkDatum 2020 2 29) (Int 366) = Ok (mkDatum 2020 2 29).
Proof.
  apply (addDays_subtractDays_inverse (mkDatum 2020 2 29) 366).
  - valid_date.
  - lia.
  - exists (mkDatum 2021 3 1). vm_compute. reflexivity.
Defined.

(** C3, as stated, fails at 9999-12-31 and [n = 1]: [addDays] throws, so
    the round trip does not return the date. *)
Lemma addDays_subtractDays_counterexample :
  ~ (valid lastDatum -> 0 <= 1 ->
     addThenSubtract lastDatum (Int 1) = Ok lastDatum).
Proof.
  intros H.
  assert (V : valid lastDatum).
  { valid_date. }
  specialize (H V ltac:(lia)).
  assert (E : addThenSubtract lastDatum (Int 1) = Throw YearOutOfRange)
    by reflexivity.
  rewrite E in H. discriminate H.
Qed.

(** C4: for valid dates [a] and [b], [a.deltaDays(b)] and
    [b.deltaDays(a)] return the same number, and when [a] is before [b],
    adding that number of days to [a] gives [b]. *)
Theorem deltaDays_symmetric_and_inverse_of_addDays (a b : Datum)
        (Va : valid a) (Vb : valid b) :
  exists k,
    deltaDays a b = Ok k
    /\ deltaDays b a = Ok k
    /\ (isBefore a b = true -> addDays a (Int k) = Ok b).
Proof.
  exists (Z.abs (dayNumber b - dayNumber a)).
  split; [now apply deltaDays_spec|].
  split; [rewrite deltaDays_sym; now apply deltaDays_spec|].
  intros H. pose proof (dayNumber_lt _ _ Va Vb H) as L.
  pose proof (dayNumber_range _ Vb).
  destruct (addDays_spec a (Z.abs (dayNumber b - dayNumber a)) Va ltac:(lia))
    as [A _].
  destruct (A ltac:(lia)) as (D & -> & VD & ND).
  f_equal. apply dayNumber_inj; trivial. lia.
Qed.

Lemma deltaDays_symmetric_and_inverse_of_addDays_witness :
  exists k,
    deltaDays (mkDatum 2018 4 3) (mkDatum 2018 10 5) = Ok k
    /\ deltaDays (mkDatum 2018 10 5) (mkDatum 2018 4 3) = Ok k
    /\ (isBefore (mkDatum 2018 4 3) (mkDatum 2018 10 5) = true ->
        addDays (mkDatum 2018 4 3) (Int k) = Ok (mkDatum 2018 10 5)).
Proof.
  apply (deltaDays_symmetric_and_inverse_of_addDays
           (mkDatum 2018 4 3) (mkDatum 2018 10 5)).
  - valid_date.
  - valid_date.
Defined.

(** C9: [addDays] fails on valid input at the upper end of the calendar:
    9999-12-31 plus one day fails on the year check of the constructor.
    For a valid date [d] and [n >= 0], [d.addDays(n)] returns a date
    exactly when the day [n] days after [d] is no later than 9999-12-31;
    it then returns that day, and otherwise fails on the year check. *)
Theorem addDays_fails_past_last_day :
  (valid lastDatum /\ addDays lastDatum (Int 1) = Throw YearOutOfRange
   /\ assertIsYear (Int 10000) = Throw YearOutOfRange)
  /\ forall (d : Datum) (n : Z),
      valid d -> 0 <= n ->
      ((exists D, addDays d (Int n) = Ok D)
       <-> dayNumber d + n <= dayNumber lastDatum)
      /\ (forall D, addDays d (Int n) = Ok D ->
                    valid D /\ dayNumber D = dayNumber d + n)
      /\ (dayNumber lastDatum < dayNumber d + n ->
          addDays d (Int n) = Throw YearOutOfRange).
Proof.
  split.
  - split; [|split; reflexivity].
    valid_date.
  - intros d n V Hn. destruct (addDays_spec d n V Hn) as [A B].
    split; [split|split].
    + intros (D & E).
      destruct (Z.le_gt_cases (dayNumber d + n) (dayNumber lastDatum)) as [L|L];
        [exact L|].
      rewrite (B L) in E. discriminate E.
    + intros L. destruct (A L) as (D & E & _). eauto.
    + intros D E.
      destruct (Z.le_gt_cases (dayNumber d + n) (dayNumber lastDatum)) as [L|L].
      * destruct (A L) as (D' & E' & VD & ND).
        assert (D' = D) by congruence. subst D'. auto.
      * rewrite (B L) in E. discriminate E.
    + exact B.
Qed.

Lemma addDays_fails_past_last_day_witness :
  (exists D, addDays (mkDatum 9999 12 30) (Int 1) = Ok D)
  <-> dayNumber (mkDatum 9999 12 30) + 1 <= dayNumber lastDatum.
Proof.
  apply (proj2 addDays_fails_past_last_day (mkDatum 9999 12 30) 1).
  - valid_date.
  - lia.
Defined.

(** ** Minimum and maximum *)

Lemma isBefore_trans_le (x m a : Datum) :
  isBefore x m = true -> isBefore a m = false -> isBefore x a = true.
Proof.
  intros H N. destruct (isBefore x a) eqn:E; trivial.
  destruct (trichotomy a m) as [T|[->|T]]; try congruence.
  destruct (trichotomy x a) as [U|[->|U]]; try congruence.
  apply isBefore_iff in H, T, U. lia.
Qed.

Lemma min_fold (l : list Datum) :
  forall a, exists m,
    fold_left min_step l (Some a) = Some m
    /\ (m = a \/ In m l)
    /\ isBefore a m = false
    /\ (forall x, In x l -> isBefore x m = false).
Proof.
  induction l as [|x l IH]; intros a; cbn [fold_left].
  - exists a. split; [reflexivity|]. split; [now left|].
    split; [apply isBefore_irrefl|]. intros x [].
  - cbn [min_step]. destruct (isBefore x a) eqn:Hxa.
    + destruct (IH x) as (m & E & Hin & Hx & Hall).
      exists m. split; [exact E|]. split; [right; destruct Hin; [left; congruence | now right]|].
      split.
      * destruct (isBefore a m) eqn:Ham; trivial.
        assert (isBefore a x = true) by (eapply isBefore_trans_le; eauto).
        pose proof (isBefore_asym _ _ Hxa). congruence.
      * intros y [<-|Hy]; auto.
    + destruct (IH a) as (m & E & Hin & Ha & Hall).
      exists m. split; [exact E|]. split; [destruct Hin; [now left | right; now right]|].
      split; [exact Ha|].
      intros y [<-|Hy]; auto.
      destruct (isBefore x m) eqn:Hxm; trivial.
      assert (isBefore x a = true) by (eapply isBefore_trans_le; eauto).
      congruence.
Qed.

Lemma max_fold (l : list Datum) :
  forall a, exists m,
    fold_left max_step l (Some a) = Some m
    /\ (m = a \/ In m l)
    /\ isAfter a m = false
    /\ (forall x, In x l -> isAfter x m = false).
Proof.
  induction l as [|x l IH]; intros a; cbn [fold_left].
  - exists a. split; [reflexivity|]. split; [now left|].
    split; [rewrite isAfter_isBefore; apply isBefore_irrefl|]. intros x [].
  - cbn [max_step]. destruct (isAfter x a) eqn:Hxa.
    + destruct (IH x) as (m & E & Hin & Hx & Hall).
      exists m. split; [exact E|]. split; [right; destruct Hin; [left; congruence | now right]|].
      split.
      * rewrite isAfter_isBefore in *.
        destruct (isBefore m a) eqn:Ham; trivial.
        assert (isBefore m x = true) by (eapply isBefore_trans_le; eauto using isBefore_asym).
        congruence.
      * intros y [<-|Hy]; auto.
    + destruct (IH a) as (m & E & Hin & Ha & Hall).
      exists m. split; [exact E|]. split; [destruct Hin; [now left | right; now right]|].
      split; [exact Ha|].
      intros y [<-|Hy]; auto.
      rewrite isAfter_isBefore in *.
      destruct (isBefore m x) eqn:Hxm; trivial.
      destruct (trichotomy a x) as [T|[->|T]]; try congruence.
      destruct (trichotomy m a) as [U|[->|U]]; try congruence.
      apply isBefore_iff in Hxm, T, U. lia.
Qed.

(** C8: [min] and [max] return no value exactly on the empty sequence;
    on any other sequence [min] returns one of its elements that no
    element is before, and [max] one that no element is after. *)
Theorem min_max_extremal (datums : list Datum) :
  (min datums = None <-> datums = [])
  /\ (max datums = None <-> datums = [])
  /\ (datums <> [] ->
      exists lo hi,
        min datums = Some lo /\ In lo datums
        /\ (forall x, In x datums -> isBefore x lo = false)
        /\ max datums = Some hi /\ In hi datums
        /\ (forall x, In x datums -> isAfter x hi = false)).
Proof.
  destruct datums as [|a l].
  - split; [|split]; try (split; reflexivity). intros N. now destruct N.
  - change (min (a :: l)) with (fold_left min_step l (Some a)).
    change (max (a :: l)) with (fold_left max_step l (Some a)).
    destruct (min_fold l a) as (lo & Elo & Ilo & Alo & Hlo).
    destruct (max_fold l a) as (hi & Ehi & Ihi & Ahi & Hhi).
    rewrite Elo, Ehi.
    split; [split; discriminate|]. split; [split; discriminate|].
    intros _. exists lo, hi.
    split; [reflexivity|]. split; [destruct Ilo; [left; congruence | now right]|].
    split; [intros x [<-|Hx]; auto|].
    split; [reflexivity|]. split; [destruct Ihi; [left; congruence | now right]|].
    intros x [<-|Hx]; auto.
Qed.

Lemma min_max_extremal_witness :
  exists lo hi,
    min [mkDatum 2019 8 29; mkDatum 1373 10 11; mkDatum 3994 2 8] = Some lo
    /\ In lo [mkDatum 2019 8 29; mkDatum 1373 10 11; mkDatum 3994 2 8]
    /\ (forall x, In x [mkDatum 2019 8 29; mkDatum 1373 10 11; mkDatum 3994 2 8]
                  -> isBefore x lo = false)
    /\ max [mkDatum 2019 8 29; mkDatum 1373 10 11; mkDatum 3994 2 8] = Some hi
    /\ In hi [mkDatum 2019 8 29; mkDatum 1373 10 11; mkDatum 3994 2 8]
    /\ (forall x, In x [mkDatum 2019 8 29; mkDatum 1373 10 11; mkDatum 3994 2 8]
                  -> isAfter x hi = false).
Proof.
  apply (proj2 (proj2 (min_max_extremal
           [mkDatum 2019 8 29; mkDatum 1373 10 11; mkDatum 3994 2 8]))).
  discriminate.
Defined.

(** ** Weekdays *)

Lemma referenceMonday_valid : valid referenceMonday.
Proof.
  valid_date.
Qed.

Lemma seven_cases (r : Z) :
  0 <= r < 7 -> r = 0 \/ r = 1 \/ r = 2 \/ r = 3 \/ r = 4 \/ r = 5 \/ r = 6.
Proof. lia. Qed.

Lemma weekday_spec (d : Datum) :
  valid d ->
  exists w,
    weekday d = Ok w
    /\ Weekday_value w
       = (if isBefore d referenceMonday
          then (7 - Z.abs (dayNumber referenceMonday - dayNumber d) mod 7) mod 7
          else Z.abs (dayNumber referenceMonday - dayNumber d) mod 7)
    /\ Weekday_value w = (dayNumber d - dayNumber referenceMonday) mod 7.
Proof.
  intros V. pose proof referenceMonday_valid as Vr.
  unfold weekday.
  change (Datum_new (Int 2019) (Int 8) (Int 26)) with (Ok referenceMonday).
  cbn [bind]. rewrite (deltaDays_spec d referenceMonday V Vr). cbn [bind].
  set (k := Z.abs (dayNumber referenceMonday - dayNumber d)).
  assert (Hk : 0 <= k) by (unfold k; lia).
  rewrite Z.rem_mod_nonneg by lia.
  pose proof (Z.mod_pos_bound k 7 ltac:(lia)) as Hr.
  pose proof (dayNumber_isBefore d referenceMonday V Vr) as HB.
  destruct (isBefore d referenceMonday) eqn:B.
  - assert (L : dayNumber d < dayNumber referenceMonday) by (now apply HB).
    assert (Ek : dayNumber d - dayNumber referenceMonday = - k)
      by (unfold k; lia).
    rewrite Ek. clearbody k.
    destruct (seven_cases _ Hr) as [E|[E|[E|[E|[E|[E|E]]]]]]; rewrite E;
      eexists; (split; [reflexivity|]); cbn [Weekday_value];
      (split; [reflexivity|]);
      clear - E Hk; Z.div_mod_to_equations; lia.
  - assert (L : dayNumber referenceMonday <= dayNumber d).
    { destruct (Z.le_gt_cases (dayNumber referenceMonday) (dayNumber d)) as [G|G];
        [exact G|].
      apply HB in G. discriminate G. }
    assert (Ek : dayNumber d - dayNumber referenceMonday = k)
      by (unfold k; lia).
    rewrite Ek. clearbody k.
    destruct (seven_cases _ Hr) as [E|[E|[E|[E|[E|[E|E]]]]]]; rewrite E;
      eexists; (split; [reflexivity|]); cbn [Weekday_value];
      split; reflexivity.
Qed.

(** C5: [weekday] returns the Gregorian weekday, computed from the
    unsigned [deltaDays] to the reference Monday 2019-08-26 modulo 7:
    after the reference the remainder is the weekday's number, before it
    the remainder counts backwards from Monday.  Either way the number of
    the weekday is the signed distance in days from the reference Monday,
    modulo 7.  2019-08-26 and 2019-08-19 are Mondays and 1988-09-11 is a
    Sunday. *)
Theorem weekday_from_reference_monday :
  (forall d : Datum,
      valid d ->
      exists delta w,
        deltaDays d referenceMonday = Ok delta
        /\ weekday d = Ok w
        /\ Weekday_value w
           = (if isBefore d referenceMonday
              then (7 - delta mod 7) mod 7
              else delta mod 7)
        /\ Weekday_value w
           = (dayNumber d - dayNumber referenceMonday) mod 7)
  /\ weekday (mkDatum 2019 8 26) = Ok Monday
  /\ weekday (mkDatum 2019 8 19) = Ok Monday
  /\ weekday (mkDatum 1988 9 11) = Ok Sunday.
Proof.
  split.
  - intros d V. destruct (weekday_spec d V) as (w & E & T & N).
    exists (Z.abs (dayNumber referenceMonday - dayNumber d)), w.
    split; [apply deltaDays_spec; [exact V | exact referenceMonday_valid]|].
    auto.
  - split; [|split]; vm_compute; reflexivity.
Qed.

Lemma weekday_from_reference_monday_witness :
  exists delta w,
    deltaDays (mkDatum 2018 10 5) referenceMonday = Ok delta
    /\ weekday (mkDatum 2018 10 5) = Ok w
    /\ Weekday_value w
       = (if isBefore (mkDatum 2018 10 5) referenceMonday
          then (7 - delta mod 7) mod 7
          else delta mod 7)
    /\ Weekday_value w
       = (dayNumber (mkDatum 2018 10 5) - dayNumber referenceMonday) mod 7.
Proof.
  apply (proj1 weekday_from_reference_monday (mkDatum 2018 10 5)).
  valid_date.
Defined.

(** ** Strings *)

Lemma N_of_digitChar (k : Z) :
  0 <= k <= 9 -> N_of_ascii (digitChar k) = (48 + Z.to_N k)%N.
Proof.
  intros H. unfold digitChar. apply N_ascii_embedding. lia.
Qed.

Lemma isDigit_digitChar (k : Z) : 0 <= k <= 9 -> isDigit (digitChar k) = true.
Proof.
  intros H. unfold isDigit. rewrite N_of_digitChar by assumption.
  apply andb_true_iff. split; apply N.leb_le; lia.
Qed.

Lemma digitValue_digitChar (k : Z) :
  0 <= k <= 9 -> digitValue (digitChar k) = k.
Proof.
  intros H. unfold digitValue. rewrite N_of_digitChar by assumption. lia.
Qed.

Lemma isDigit_range (c : ascii) :
  isDigit c = true -> 0 <= digitValue c <= 9.
Proof.
  unfold isDigit, digitValue. rewrite andb_true_iff, !N.leb_le. lia.
Qed.

Lemma digitChar_digitValue (c : ascii) :
  isDigit c = true -> digitChar (digitValue c) = c.
Proof.
  intros H. pose proof (isDigit_range c H) as R. revert H R.
  unfold isDigit, digitValue, digitChar.
  rewrite andb_true_iff, !N.leb_le. intros [L U] R.
  replace (48 + Z.to_N (Z.of_N (N_of_ascii c) - 48))%N with (N_of_ascii c)
    by lia.
  apply ascii_N_embedding.
Qed.

(** A digit is neither white space nor a sign. *)
Lemma isDigit_not_space (c : ascii) :
  isDigit c = true -> isWhiteSpace c = false.
Proof.
  unfold isDigit, isWhiteSpace. rewrite andb_true_iff, !N.leb_le.
  intros [L U].
  rewrite !orb_false_iff, andb_false_iff, !N.leb_gt, !N.eqb_neq. lia.
Qed.

Lemma isDigit_not_sign (c : ascii) :
  isDigit c = true ->
  Ascii.eqb c "-" = false /\ Ascii.eqb c "+" = false.
Proof.
  intros H. split.
  - destruct (Ascii.eqb_spec c "-") as [->|]; [discriminate H | reflexivity].
  - destruct (Ascii.eqb_spec c "+") as [->|]; [discriminate H | reflexivity].
Qed.

(** [parseInt] on a group of the match: its decimal value. *)
Lemma parseInt_4 (c1 c2 c3 c4 : ascii) :
  isDigit c1 = true -> isDigit c2 = true -> isDigit c3 = true ->
  isDigit c4 = true ->
  parseInt (String c1 (String c2 (String c3 (String c4 EmptyString))))
  = Int (1000 * digitValue c1 + 100 * digitValue c2 + 10 * digitValue c3
         + digitValue c4).
Proof.
  intros H1 H2 H3 H4. unfold parseInt. cbn [trimStart].
  rewrite (isDigit_not_space c1 H1).
  destruct (isDigit_not_sign c1 H1) as [-> ->].
  cbn [parseDigits]. rewrite H1, H2, H3, H4. f_equal; lia.
Qed.

Lemma parseInt_2 (c1 c2 : ascii) :
  isDigit c1 = true -> isDigit c2 = true ->
  parseInt (String c1 (String c2 EmptyString))
  = Int (10 * digitValue c1 + digitValue c2).
Proof.
  intros H1 H2. unfold parseInt. cbn [trimStart].
  rewrite (isDigit_not_space c1 H1).
  destruct (isDigit_not_sign c1 H1) as [-> ->].
  cbn [parseDigits]. rewrite H1, H2. f_equal; lia.
Qed.

(** The matcher accepts exactly the strings of the date shape, and
    captures the three groups of digits. *)
Lemma match_REGEX_shape (c1 c2 c3 c4 c5 c6 c7 c8 : ascii) :
  isDigit c1 = true -> isDigit c2 = true -> isDigit c3 = true ->
  isDigit c4 = true -> isDigit c5 = true -> isDigit c6 = true ->
  isDigit c7 = true -> isDigit c8 = true ->
  match_REGEX (dateShape c1 c2 c3 c4 c5 c6 c7 c8)
  = Some (String c1 (String c2 (String c3 (String c4 EmptyString))),
          String c5 (String c6 EmptyString),
          String c7 (String c8 EmptyString)).
Proof.
  intros H1 H2 H3 H4 H5 H6 H7 H8.
  unfold match_REGEX, dateShape. cbn [takeDigits].
  rewrite H1, H2, H3, H4. cbn [expectChar Ascii.eqb Bool.eqb].
  rewrite H5, H6. cbn [expectChar Ascii.eqb Bool.eqb].
  rewrite H7, H8. reflexivity.
Qed.

Lemma takeDigits_2_inv (s g r : string) :
  takeDigits 2 s = Some (g, r) ->
  exists c1 c2,
    s = String c1 (String c2 r) /\ g = String c1 (String c2 EmptyString)
    /\ isDigit c1 = true /\ isDigit c2 = true.
Proof.
  cbn [takeDigits].
  destruct s as [|c1 [|c2 s]]; try discriminate.
  - destruct (isDigit c1); discriminate.
  - destruct (isDigit c1) eqn:H1; [|discriminate].
    destruct (isDigit c2) eqn:H2; [|discriminate].
    intros E. inversion E; subst. exists c1, c2. auto.
Qed.

Lemma takeDigits_4_inv (s g r : string) :
  takeDigits 4 s = Some (g, r) ->
  exists c1 c2 c3 c4,
    s = String c1 (String c2 (String c3 (String c4 r)))
    /\ g = String c1 (String c2 (String c3 (String c4 EmptyString)))
    /\ isDigit c1 = true /\ isDigit c2 = true
    /\ isDigit c3 = true /\ isDigit c4 = true.
Proof.
  change (takeDigits 4 s) with
    (match s with
     | String c rest =>
         if isDigit c then
           match
             match rest with
             | String c' rest' =>
                 if isDigit c' then
                   match takeDigits 2 rest' with
                   | Some (group, rest'') => Some (String c' group, rest'')
                   | None => None
                   end
                 else None
             | EmptyString => None
             end
           with
           | Some (group, rest') => Some (String c group, rest')
           | None => None
           end
         else None
     | EmptyString => None
     end).
  destruct s as [|c1 [|c2 s]]; try discriminate.
  - destruct (isDigit c1); discriminate.
  - destruct (isDigit c1) eqn:H1; [|discriminate].
    destruct (isDigit c2) eqn:H2; [|discriminate].
    destruct (takeDigits 2 s) as [[g' r']|] eqn:T; [|discriminate].
    intros E. inversion E; subst.
    apply takeDigits_2_inv in T as (c3 & c4 & -> & -> & H3 & H4).
    exists c1, c2, c3, c4. auto 6.
Qed.

Lemma expectChar_inv (c : ascii) (s r : string) :
  expectChar c s = Some r -> s = String c r.
Proof.
  destruct s as [|c' s]; cbn [expectChar]; [discriminate|].
  destruct (Ascii.eqb_spec c c') as [->|]; [|discriminate].
  intros E. inversion E. reflexivity.
Qed.

Lemma match_REGEX_inv (s g1 g2 g3 : string) :
  match_REGEX s = Some (g1, g2, g3) ->
  exists c1 c2 c3 c4 c5 c6 c7 c8,
    s = dateShape c1 c2 c3 c4 c5 c6 c7 c8
    /\ (isDigit c1 = true /\ isDigit c2 = true /\ isDigit c3 = true
        /\ isDigit c4 = true /\ isDigit c5 = true /\ isDigit c6 = true
        /\ isDigit c7 = true /\ isDigit c8 = true)
    /\ g1 = String c1 (String c2 (String c3 (String c4 EmptyString)))
    /\ g2 = String c5 (String c6 EmptyString)
    /\ g3 = String c7 (String c8 EmptyString).
Proof.
  unfold match_REGEX.
  destruct (takeDigits 4 s) as [[h1 r1]|] eqn:T1; [|discriminate].
  destruct (expectChar "-" r1) as [r2|] eqn:X1; [|discriminate].
  destruct (takeDigits 2 r2) as [[h2 r3]|] eqn:T2; [|discriminate].
  destruct (expectChar "-" r3) as [r4|] eqn:X2; [|discriminate].
  destruct (takeDigits 2 r4) as [[h3 [|c r5]]|] eqn:T3; try discriminate.
  intros E. inversion E; subst h1 h2 h3.
  apply takeDigits_4_inv in T1 as (c1 & c2 & c3 & c4 & -> & -> & H1 & H2 & H3 & H4).
  apply expectChar_inv in X1 as ->.
  apply takeDigits_2_inv in T2 as (c5 & c6 & -> & -> & H5 & H6).
  apply expectChar_inv in X2 as ->.
  apply takeDigits_2_inv in T3 as (c7 & c8 & -> & -> & H7 & H8).
  exists c1, c2, c3, c4, c5, c6, c7, c8.
  split; [reflexivity|]. split; [tauto|]. auto.
Qed.

Lemma match_REGEX_matchesFormat (s : string) :
  match_REGEX s <> None <-> matchesFormat s.
Proof.
  split.
  - destruct (match_REGEX s) as [[[g1 g2] g3]|] eqn:E; [|congruence].
    intros _. apply match_REGEX_inv in E
      as (c1 & c2 & c3 & c4 & c5 & c6 & c7 & c8 & -> & H & _).
    exists c1, c2, c3, c4, c5, c6, c7, c8. tauto.
  - intros (c1 & c2 & c3 & c4 & c5 & c6 & c7 & c8 & -> & H1 & H2 & H3 & H4
            & H5 & H6 & H7 & H8).
    rewrite match_REGEX_shape by assumption. discriminate.
Qed.

Lemma matchesFormat_length (s : string) :
  matchesFormat s -> String.length s = 10%nat.
Proof.
  intros (c1 & c2 & c3 & c4 & c5 & c6 & c7 & c8 & -> & _). reflexivity.
Qed.

(** The decimal digits of a number, one turn of the loop at a time. *)
Lemma digitsOf_S (fuel : nat) (n : Z) (acc : string) :
  digitsOf (S fuel) n acc
  = if n / 10 =? 0 then String (digitChar (n mod 10)) acc
    else digitsOf fuel (n / 10) (String (digitChar (n mod 10)) acc).
Proof. reflexivity. Qed.

Lemma Number_toString_nonneg (v : Z) :
  0 <= v ->
  Number_toString v = digitsOf (S (Z.to_nat (Z.log2 v))) v EmptyString.
Proof.
  intros H. unfold Number_toString.
  destruct (Z.ltb_spec v 0); [lia | reflexivity].
Qed.

(** From 10 on the step budget of [Number_toString] is at least four. *)
Lemma digits_budget (v : Z) :
  10 <= v -> exists k, Z.to_nat (Z.log2 v) = S (S (S k)).
Proof.
  intros H. pose proof (Z.log2_le_mono 8 v ltac:(lia)) as L.
  change (Z.log2 8) with 3 in L.
  exists (Z.to_nat (Z.log2 v) - 3)%nat. lia.
Qed.

Lemma pad4_1 (c : ascii) :
  padWithLeadingZeros (String c EmptyString) 4
  = String "0" (String "0" (String "0" (String c EmptyString))).
Proof. reflexivity. Qed.

Lemma pad4_2 (c1 c2 : ascii) :
  padWithLeadingZeros (String c1 (String c2 EmptyString)) 4
  = String "0" (String "0" (String c1 (String c2 EmptyString))).
Proof. reflexivity. Qed.

Lemma pad4_3 (c1 c2 c3 : ascii) :
  padWithLeadingZeros (String c1 (String c2 (String c3 EmptyString))) 4
  = String "0" (String c1 (String c2 (String c3 EmptyString))).
Proof. reflexivity. Qed.

Lemma pad4_4 (c1 c2 c3 c4 : ascii) :
  padWithLeadingZeros
    (String c1 (String c2 (String c3 (String c4 EmptyString)))) 4
  = String c1 (String c2 (String c3 (String c4 EmptyString))).
Proof. reflexivity. Qed.

Lemma pad2_1 (c : ascii) :
  padWithLeadingZeros (String c EmptyString) 2
  = String "0" (String c EmptyString).
Proof. reflexivity. Qed.

Lemma pad2_2 (c1 c2 : ascii) :
  padWithLeadingZeros (String c1 (String c2 EmptyString)) 2
  = String c1 (String c2 EmptyString).
Proof. reflexivity. Qed.

Ltac div_facts := Z.div_mod_to_equations; lia.

(** The padded decimal form of a year is its four-digit form. *)
Lemma padded4 (v : Z) :
  0 <= v <= 9999 -> padWithLeadingZeros (Number_toString v) 4 = digits4 v.
Proof.
  intros H. rewrite Number_toString_nonneg by lia. unfold digits4.
  destruct (Z_lt_dec v 10) as [L1|G1].
  { rewrite digitsOf_S. replace (v / 10) with 0 by div_facts.
    cbn [Z.eqb]. rewrite pad4_1.
    replace (v / 1000) with 0 by div_facts.
    replace (v / 100) with 0 by div_facts. reflexivity. }
  destruct (digits_budget v ltac:(lia)) as (k & ->).
  rewrite digitsOf_S.
  destruct (Z.eqb_spec (v / 10) 0) as [E|_]; [exfalso; div_facts|].
  rewrite digitsOf_S.
  destruct (Z.eqb_spec (v / 10 / 10) 0) as [E2|N2].
  { rewrite pad4_2.
    replace (v / 1000) with 0 by div_facts.
    replace (v / 100) with 0 by div_facts. reflexivity. }
  replace (v / 10 / 10) with (v / 100) in * by div_facts.
  rewrite digitsOf_S.
  destruct (Z.eqb_spec (v / 100 / 10) 0) as [E3|N3].
  { rewrite pad4_3. replace (v / 1000) with 0 by div_facts. reflexivity. }
  replace (v / 100 / 10) with (v / 1000) in * by div_facts.
  rewrite digitsOf_S.
  replace (v / 1000 / 10) with 0 by div_facts. cbn [Z.eqb].
  rewrite pad4_4.
  replace (v / 1000 mod 10) with (v / 1000) by div_facts. reflexivity.
Qed.

(** The padded decimal form of a month or a day is its two-digit form. *)
Lemma padded2 (v : Z) :
  0 <= v <= 99 -> padWithLeadingZeros (Number_toString v) 2 = digits2 v.
Proof.
  intros H. rewrite Number_toString_nonneg by lia. unfold digits2.
  destruct (Z_lt_dec v 10) as [L1|G1].
  { rewrite digitsOf_S. replace (v / 10) with 0 by div_facts.
    cbn [Z.eqb]. now rewrite pad2_1. }
  destruct (digits_budget v ltac:(lia)) as (k & ->).
  rewrite digitsOf_S.
  destruct (Z.eqb_spec (v / 10) 0) as [E|_]; [exfalso; div_facts|].
  rewrite digitsOf_S.
  replace (v / 10 / 10) with 0 by div_facts. cbn [Z.eqb].
  rewrite pad2_2.
  replace (v / 10 mod 10) with (v / 10) by div_facts. reflexivity.
Qed.

(** The loop of [padWithLeadingZeros] ends because its test fails, not
    because the budget is used up. *)
Lemma padWithLeadingZeros_loop_length (fuel : nat) :
  forall (result : string) (targetLength : nat),
    (targetLength <= String.length result + fuel)%nat ->
    (targetLength
     <= String.length (padWithLeadingZeros_loop fuel result targetLength))%nat.
Proof.
  induction fuel as [|fuel IH]; intros result targetLength H;
    cbn [padWithLeadingZeros_loop].
  - lia.
  - destruct (Nat.ltb_spec (String.length result) targetLength) as [L|L];
      [|exact L].
    apply IH. cbn [append String.length]. lia.
Qed.

Lemma toString_shape (d : Datum) :
  valid d ->
  toString d
  = dateShape (digitChar (year d / 1000)) (digitChar (year d / 100 mod 10))
              (digitChar (year d / 10 mod 10)) (digitChar (year d mod 10))
              (digitChar (month d / 10)) (digitChar (month d mod 10))
              (digitChar (day d / 10)) (digitChar (day d mod 10)).
Proof.
  intros (Hy & Hm & Hd).
  pose proof (monthLength_bounds (year d) (month d)).
  unfold toString. rewrite padded4, !padded2 by lia. reflexivity.
Qed.

Lemma decimal4 (v : Z) :
  0 <= v <= 9999 ->
  0 <= v / 1000 <= 9 /\ 0 <= v / 100 mod 10 <= 9
  /\ 0 <= v / 10 mod 10 <= 9 /\ 0 <= v mod 10 <= 9
  /\ v = 1000 * (v / 1000) + 100 * (v / 100 mod 10)
         + 10 * (v / 10 mod 10) + v mod 10.
Proof. intros H. Z.div_mod_to_equations. lia. Qed.

Lemma decimal2 (v : Z) :
  0 <= v <= 99 ->
  0 <= v / 10 <= 9 /\ 0 <= v mod 10 <= 9 /\ v = 10 * (v / 10) + v mod 10.
Proof. intros H. Z.div_mod_to_equations. lia. Qed.

Lemma fromString_shape (c1 c2 c3 c4 c5 c6 c7 c8 : ascii) :
  isDigit c1 = true -> isDigit c2 = true -> isDigit c3 = true ->
  isDigit c4 = true -> isDigit c5 = true -> isDigit c6 = true ->
  isDigit c7 = true -> isDigit c8 = true ->
  fromString (dateShape c1 c2 c3 c4 c5 c6 c7 c8)
  = Datum_new
      (Int (1000 * digitValue c1 + 100 * digitValue c2 + 10 * digitValue c3
            + digitValue c4))
      (Int (10 * digitValue c5 + digitValue c6))
      (Int (10 * digitValue c7 + digitValue c8)).
Proof.
  intros H1 H2 H3 H4 H5 H6 H7 H8. unfold fromString.
  change (String.length (dateShape c1 c2 c3 c4 c5 c6 c7 c8)) with 10%nat.
  change (negb (10 =? STRING_LENGTH)%nat) with false. cbv iota.
  rewrite match_REGEX_shape by assumption. cbv iota beta zeta.
  now rewrite parseInt_4, !parseInt_2 by assumption.
Qed.

Lemma fromString_toString (d : Datum) :
  valid d -> fromString (toString d) = Ok d.
Proof.
  intros V. rewrite toString_shape by assumption.
  pose proof V as (Hy & Hm & Hd).
  pose proof (monthLength_bounds (year d) (month d)).
  destruct (decimal4 (year d) Hy) as (Y1 & Y2 & Y3 & Y4 & EY).
  destruct (decimal2 (month d) ltac:(lia)) as (M1 & M2 & EM).
  destruct (decimal2 (day d) ltac:(lia)) as (D1 & D2 & ED).
  rewrite fromString_shape by (apply isDigit_digitChar; assumption).
  rewrite !digitValue_digitChar by assumption.
  rewrite <- EY, <- EM, <- ED.
  destruct d as [y m dd]. now apply Datum_new_valid.
Qed.

Lemma Int_inj (a b : Z) : Int a = Int b -> a = b.
Proof. intros E. now inversion E. Qed.

Lemma toString_fromString (s : string) (d : Datum) :
  fromString s = Ok d -> toString d = s.
Proof.
  intros E. pose proof E as E'. unfold fromString in E'.
  destruct (negb _); [discriminate E'|].
  destruct (match_REGEX s) as [[[g1 g2] g3]|] eqn:M; [|discriminate E'].
  clear E'.
  apply match_REGEX_inv in M
    as (c1 & c2 & c3 & c4 & c5 & c6 & c7 & c8 & -> & H & _).
  destruct H as (H1 & H2 & H3 & H4 & H5 & H6 & H7 & H8).
  rewrite fromString_shape in E by assumption.
  apply Datum_new_inv in E as (V & Ey & Em & Ed).
  apply Int_inj in Ey, Em, Ed.
  rewrite toString_shape by assumption.
  pose proof (isDigit_range _ H1). pose proof (isDigit_range _ H2).
  pose proof (isDigit_range _ H3). pose proof (isDigit_range _ H4).
  pose proof (isDigit_range _ H5). pose proof (isDigit_range _ H6).
  pose proof (isDigit_range _ H7). pose proof (isDigit_range _ H8).
  rewrite <- (digitChar_digitValue c1 H1), <- (digitChar_digitValue c2 H2),
    <- (digitChar_digitValue c3 H3), <- (digitChar_digitValue c4 H4),
    <- (digitChar_digitValue c5 H5), <- (digitChar_digitValue c6 H6),
    <- (digitChar_digitValue c7 H7), <- (digitChar_digitValue c8 H8).
  rewrite <- Ey, <- Em, <- Ed. unfold dateShape.
  repeat f_equal; Z.div_mod_to_equations; lia.
Qed.

(** C2: [fromString(toString(d))] is [d] for every valid date [d], and
    [toString(fromString(s))] is [s] for every string [s] that
    [fromString] accepts. *)
Theorem string_round_trip :
  (forall d : Datum, valid d -> fromString (toString d) = Ok d)
  /\ (forall (s : string) (d : Datum),
         fromString s = Ok d ->
         toString d = s
         /\ String.length s = 10%nat /\ matchesFormat s /\ valid d).
Proof.
  split; [exact fromString_toString|].
  intros s d E. split; [now apply toString_fromString|].
  pose proof E as E'. unfold fromString in E'.
  destruct (String.length s =? STRING_LENGTH)%nat eqn:L;
    [|discriminate E']. cbn [negb] in E'.
  apply Nat.eqb_eq in L.
  destruct (match_REGEX s) as [[[g1 g2] g3]|] eqn:M; [|discriminate E'].
  split; [exact L|]. split.
  - apply match_REGEX_matchesFormat. congruence.
  - now apply Datum_new_valid_result in E'.
Qed.

Lemma string_round_trip_witness :
  fromString (toString (mkDatum 600 3 27)) = Ok (mkDatum 600 3 27)
  /\ toString (mkDatum 600 3 27) = "0600-03-27"%string.
Proof.
  split.
  - apply (proj1 string_round_trip (mkDatum 600 3 27)).
    valid_date.
  - apply (proj2 string_round_trip "0600-03-27"%string (mkDatum 600 3 27)).
    reflexivity.
Defined.

Lemma assertIsMonth_range (m : Z) :
  ~ 1 <= m <= 12 -> assertIsMonth (Int m) = Throw MonthOutOfRange.
Proof. intros H. unfold assertIsMonth. zbool; simpl; trivial; lia. Qed.

Lemma assertIsDay_range (d : Z) :
  ~ 1 <= d <= 31 -> assertIsDay (Int d) = Throw DayOutOfRange.
Proof. intros H. unfold assertIsDay. zbool; simpl; trivial; lia. Qed.

(** On three integers that are not a calendar date the constructor
    throws. *)
Lemma Datum_new_invalid (y m d : Z) :
  ~ valid (mkDatum y m d) ->
  exists f,
    Datum_new (Int y) (Int m) (Int d) = Throw f
    /\ (f = YearOutOfRange \/ f = MonthOutOfRange \/ f = DayOutOfRange
        \/ f = DayExceedsMonth).
Proof.
  intros N. unfold valid in N; cbn [year month day] in N.
  unfold Datum_new.
  destruct (Z_le_dec 0 y) as [Hy0|Hy0]; [destruct (Z_le_dec y 9999) as [Hy1|Hy1]|];
    try (rewrite assertIsYear_range by lia; cbn [bind]; eauto).
  rewrite assertIsYear_ok by lia. cbn [bind].
  destruct (Z_le_dec 1 m) as [Hm0|Hm0]; [destruct (Z_le_dec m 12) as [Hm1|Hm1]|];
    try (rewrite assertIsMonth_range by lia; cbn [bind]; eauto).
  rewrite assertIsMonth_ok by lia. cbn [bind].
  destruct (Z_le_dec 1 d) as [Hd0|Hd0]; [destruct (Z_le_dec d 31) as [Hd1|Hd1]|];
    try (rewrite assertIsDay_range by lia; cbn [bind]; eauto 6).
  rewrite assertIsDay_ok by lia. cbn [bind].
  rewrite getDaysInMonth_monthLength by lia. cbn [bind].
  rewrite Z.gtb_ltb. destruct (Z.ltb_spec (monthLength y m) d); [eauto 6 | lia].
Qed.

(** C6: [fromString] fails, with a [RangeError], on every string that
    does not have length 10 or is not of the form YYYY-MM-DD in decimal
    digits.  On a string of that form it reads the three groups as
    decimal numbers and calls the constructor on them, so that it fails
    when they are not a calendar date, as for 2019-02-30. *)
Theorem fromString_rejects_malformed :
  (forall s : string,
      String.length s <> 10%nat \/ ~ matchesFormat s ->
      exists f,
        fromString s = Throw f
        /\ (String.length s <> 10%nat -> f = StrLength)
        /\ (String.length s = 10%nat -> f = StrFormat)
        /\ thrown Throwing f = Some RangeError)
  /\ (forall c1 c2 c3 c4 c5 c6 c7 c8 : ascii,
         isDigit c1 = true -> isDigit c2 = true -> isDigit c3 = true ->
         isDigit c4 = true -> isDigit c5 = true -> isDigit c6 = true ->
         isDigit c7 = true -> isDigit c8 = true ->
         let y := 1000 * digitValue c1 + 100 * digitValue c2
                  + 10 * digitValue c3 + digitValue c4 in
         let m := 10 * digitValue c5 + digitValue c6 in
         let d := 10 * digitValue c7 + digitValue c8 in
         match_REGEX (dateShape c1 c2 c3 c4 c5 c6 c7 c8)
         = Some (String c1 (String c2 (String c3 (String c4 EmptyString))),
                 String c5 (String c6 EmptyString),
                 String c7 (String c8 EmptyString))
         /\ parseInt (String c1 (String c2 (String c3 (String c4 EmptyString))))
            = Int y
         /\ parseInt (String c5 (String c6 EmptyString)) = Int m
         /\ parseInt (String c7 (String c8 EmptyString)) = Int d
         /\ fromString (dateShape c1 c2 c3 c4 c5 c6 c7 c8)
            = Datum_new (Int y) (Int m) (Int d)
         /\ (~ valid (mkDatum y m d) ->
             exists f, fromString (dateShape c1 c2 c3 c4 c5 c6 c7 c8) = Throw f))
  /\ fromString "2019-02-30" = Throw DayExceedsMonth
  /\ thrown Throwing DayExceedsMonth = Some RangeError.
Proof.
  split; [|split; [|split; reflexivity]].
  - intros s H. unfold fromString.
    destruct (Nat.eqb_spec (String.length s) STRING_LENGTH) as [L|L];
      cbn [negb].
    + destruct (match_REGEX s) as [[[g1 g2] g3]|] eqn:M.
      * exfalso. destruct H as [H|H]; [exact (H L)|].
        apply H, match_REGEX_matchesFormat. congruence.
      * exists StrFormat. split; [reflexivity|].
        split; [intros N; contradiction|]. split; reflexivity.
    + exists StrLength. split; [reflexivity|].
      split; [reflexivity|]. split; [intros E; contradiction | reflexivity].
  - intros c1 c2 c3 c4 c5 c6 c7 c8 H1 H2 H3 H4 H5 H6 H7 H8 y m d.
    split; [now apply match_REGEX_shape|].
    split; [now apply parseInt_4|].
    split; [now apply parseInt_2|].
    split; [now apply parseInt_2|].
    split; [now apply fromString_shape|].
    intros N. rewrite fromString_shape by assumption.
    destruct (Datum_new_invalid y m d N) as (f & E & _). eauto.
Qed.

Lemma fromString_rejects_malformed_witness :
  exists f,
    fromString "2019-2-30" = Throw f
    /\ (String.length "2019-2-30" <> 10%nat -> f = StrLength)
    /\ (String.length "2019-2-30" = 10%nat -> f = StrFormat)
    /\ thrown Throwing f = Some RangeError.
Proof.
  apply (proj1 fromString_rejects_malformed "2019-2-30"%string).
  left. cbn. discriminate.
Defined.

(** The assertion-based revision fails on the same strings, with the
    [AssertionError] of [assertEquals] on the length and a plain [Error]
    on the format. *)
Lemma asserting_revision_error_classes :
  thrown Asserting StrLength = Some AssertionError
  /\ thrown Asserting StrFormat = Some PlainError
  /\ thrown Asserting DayExceedsMonth = Some PlainError.
Proof. repeat split. Qed.

(** ** The string form and the order *)

Lemma compare_cons (c1 c2 : ascii) (s1 s2 : string) :
  String.compare (String c1 s1) (String c2 s2)
  = lexi (Ascii.compare c1 c2) (String.compare s1 s2).
Proof. reflexivity. Qed.

Lemma digitChar_compare (a b : Z) :
  0 <= a <= 9 -> 0 <= b <= 9 ->
  Ascii.compare (digitChar a) (digitChar b) = (a ?= b).
Proof.
  intros Ha Hb. unfold Ascii.compare. rewrite !N_of_digitChar by assumption.
  destruct (Z.compare_spec a b) as [E|L|G].
  - apply N.compare_eq_iff. lia.
  - apply N.compare_lt_iff. lia.
  - apply N.compare_gt_iff. lia.
Qed.

(** One more digit on both sides. *)
Lemma lexi_digit (ha hb la lb : Z) (k : comparison) :
  0 <= la <= 9 -> 0 <= lb <= 9 ->
  lexi (ha ?= hb) (lexi (la ?= lb) k)
  = lexi (10 * ha + la ?= 10 * hb + lb) k.
Proof.
  intros Ha Hb. unfold lexi.
  destruct (Z.compare_spec ha hb), (Z.compare_spec la lb),
    (Z.compare_spec (10 * ha + la) (10 * hb + lb)); try reflexivity; lia.
Qed.

Lemma toString_compare (a b : Datum) :
  valid a -> valid b ->
  String.compare (toString a) (toString b)
  = lexi (year a ?= year b) (lexi (month a ?= month b) (day a ?= day b)).
Proof.
  intros Va Vb. rewrite !toString_shape by assumption.
  pose proof Va as (Hya & Hma & Hda). pose proof Vb as (Hyb & Hmb & Hdb).
  pose proof (monthLength_bounds (year a) (month a)).
  pose proof (monthLength_bounds (year b) (month b)).
  destruct (decimal4 (year a) Hya) as (A1 & A2 & A3 & A4 & EA).
  destruct (decimal4 (year b) Hyb) as (B1 & B2 & B3 & B4 & EB).
  destruct (decimal2 (month a) ltac:(lia)) as (A5 & A6 & EMA).
  destruct (decimal2 (month b) ltac:(lia)) as (B5 & B6 & EMB).
  destruct (decimal2 (day a) ltac:(lia)) as (A7 & A8 & EDA).
  destruct (decimal2 (day b) ltac:(lia)) as (B7 & B8 & EDB).
  unfold dateShape. rewrite !compare_cons.
  rewrite !digitChar_compare by assumption.
  change (Ascii.compare "-" "-") with Eq.
  change (String.compare EmptyString EmptyString) with Eq.
  cbn [lexi].
  rewrite (lexi_digit (year a / 1000)) by assumption.
  rewrite (lexi_digit (10 * (year a / 1000) + year a / 100 mod 10))
    by assumption.
  rewrite (lexi_digit (10 * (10 * (year a / 1000) + year a / 100 mod 10)
                       + year a / 10 mod 10)) by assumption.
  replace (10 * (10 * (10 * (year a / 1000) + year a / 100 mod 10)
                 + year a / 10 mod 10) + year a mod 10)
    with (year a) by lia.
  replace (10 * (10 * (10 * (year b / 1000) + year b / 100 mod 10)
                 + year b / 10 mod 10) + year b mod 10)
    with (year b) by lia.
  rewrite (lexi_digit (month a / 10)) by assumption.
  rewrite <- EMA, <- EMB.
  rewrite (lexi_digit (day a / 10)) by assumption.
  rewrite <- EDA, <- EDB.
  now destruct (day a ?= day b).
Qed.

(** C10: the string form embeds the order: for valid dates [a] and [b],
    [a.isBefore(b)] holds exactly when [toString(a)] is smaller than
    [toString(b)] in the lexicographic order of strings, and
    [a.isEqual(b)] exactly when the two strings are equal. *)
Theorem toString_order_embedding (a b : Datum)
        (Va : valid a) (Vb : valid b) :
  (isBefore a b = true <-> String.ltb (toString a) (toString b) = true)
  /\ (isEqual a b = true <-> toString a = toString b).
Proof.
  split.
  - unfold String.ltb. rewrite toString_compare by assumption.
    rewrite isBefore_iff. unfold lexi.
    destruct (Z.compare_spec (year a) (year b)),
      (Z.compare_spec (month a) (month b)),
      (Z.compare_spec (day a) (day b));
      split; intros Hlt; try reflexivity; try discriminate Hlt; lia.
  - rewrite isEqual_iff. split; [now intros ->|].
    intros E. pose proof (fromString_toString a Va) as Fa.
    rewrite E, (fromString_toString b Vb) in Fa. congruence.
Qed.

Lemma toString_order_embedding_witness :
  (isBefore (mkDatum 999 12 31) (mkDatum 1000 1 1) = true
   <-> String.ltb (toString (mkDatum 999 12 31)) (toString (mkDatum 1000 1 1))
       = true)
  /\ (isEqual (mkDatum 999 12 31) (mkDatum 1000 1 1) = true
      <-> toString (mkDatum 999 12 31) = toString (mkDatum 1000 1 1)).
Proof.
  apply (toString_order_embedding (mkDatum 999 12 31) (mkDatum 1000 1 1)).
  - valid_date.
  - valid_date.
Defined.

(** ** Termination of the loops *)

(** On a valid date the loops of [addDays], [subtractDays] and [deltaDays]
    come to an end within their step budget: each call returns or throws. *)
Lemma loops_terminate (d other : Datum) (n : number) :
  valid d -> valid other ->
  addDays d n <> OutOfFuel
  /\ subtractDays d n <> OutOfFuel
  /\ deltaDays d other <> OutOfFuel
  /\ weekday d <> OutOfFuel.
Proof.
  intros V Vo. split; [|split; [|split]].
  - destruct n as [k|]; [|discriminate].
    destruct (Z_le_dec 0 k) as [P|N].
    + destruct (addDays_spec d k V P) as [A B].
      destruct (Z.le_gt_cases (dayNumber d + k) (dayNumber lastDatum)) as [L|L].
      * destruct (A L) as (D & -> & _). discriminate.
      * rewrite (B L). discriminate.
    + unfold addDays. destruct (Z.leb_spec 0 k); [lia | discriminate].
  - destruct n as [k|]; [|discriminate].
    destruct (Z_le_dec 0 k) as [P|N].
    + destruct (subtractDays_spec d k V P) as [A B].
      destruct (Z.le_gt_cases k (dayNumber d)) as [L|L].
      * destruct (A L) as (D & -> & _). discriminate.
      * rewrite (B L). discriminate.
    + unfold subtractDays. rewrite Z.gtb_ltb.
      destruct (Z.ltb_spec k 0); [discriminate | lia].
  - rewrite deltaDays_spec by assumption. discriminate.
  - destruct (weekday_spec d V) as (w & -> & _). discriminate.
Qed.

(** * Further properties of the code *)

(** ** The order of dates *)

Lemma isBefore_trans (a b c : Datum) :
  isBefore a b = true -> isBefore b c = true -> isBefore a c = true.
Proof. rewrite !isBefore_iff. lia. Qed.

Lemma exactly_one_holds (a b : Datum) :
  (isBefore a b = true /\ isEqual a b = false /\ isAfter a b = false)
  \/ (isBefore a b = false /\ isEqual a b = true /\ isAfter a b = false)
  \/ (isBefore a b = false /\ isEqual a b = false /\ isAfter a b = true).
Proof.
  rewrite isAfter_isBefore.
  destruct (trichotomy a b) as [H|[->|H]].
  - left. split; [exact H|]. split.
    + apply isEqual_false. now apply isBefore_neq.
    + now apply isBefore_asym.
  - right; left. rewrite isBefore_irrefl. split; [reflexivity|].
    split; [now apply isEqual_iff | reflexivity].
  - right; right. split; [now apply isBefore_asym|]. split; [|exact H].
    apply isEqual_false. intros ->. rewrite isBefore_irrefl in H. discriminate H.
Qed.

(** X1: [isBefore] is a strict total order on dates: no date is before
    itself, the relation is transitive, of [isBefore], [isEqual] and
    [isAfter] exactly one holds for any two dates, and [a.isAfter(b)] is
    [b.isBefore(a)]. *)
Theorem isBefore_strict_total_order (a b c : Datum) :
  isBefore a a = false
  /\ (isBefore a b = true -> isBefore b c = true -> isBefore a c = true)
  /\ ((isBefore a b = true /\ isEqual a b = false /\ isAfter a b = false)
      \/ (isBefore a b = false /\ isEqual a b = true /\ isAfter a b = false)
      \/ (isBefore a b = false /\ isEqual a b = false /\ isAfter a b = true))
  /\ isAfter a b = isBefore b a
  /\ (isEqual a b = true <-> a = b).
Proof.
  split; [apply isBefore_irrefl|]. split; [apply isBefore_trans|].
  split; [apply exactly_one_holds|]. split; [apply isAfter_isBefore|].
  apply isEqual_iff.
Qed.

Lemma isBefore_strict_total_order_witness :
  isBefore (mkDatum 1373 10 11) (mkDatum 3994 2 8) = true.
Proof.
  apply (proj1 (proj2 (isBefore_strict_total_order
           (mkDatum 1373 10 11) (mkDatum 2019 8 29) (mkDatum 3994 2 8))));
    reflexivity.
Defined.

Lemma compareAsc_cases (a b : Datum) :
  (isBefore a b = true /\ compareAsc a b = -1 /\ compareDesc a b = 1)
  \/ (a = b /\ compareAsc a b = 0 /\ compareDesc a b = 0)
  \/ (isBefore b a = true /\ compareAsc a b = 1 /\ compareDesc a b = -1).
Proof.
  unfold compareAsc, compareDesc.
  destruct (exactly_one_holds a b) as [(B & E & A)|[(B & E & A)|(B & E & A)]];
    rewrite B, ?A.
  - left. auto.
  - right; left. apply isEqual_iff in E. auto.
  - right; right. rewrite isAfter_isBefore in A. auto.
Qed.

Ltac order_solve :=
  subst; try assumption; try reflexivity; try discriminate; auto;
  try (rewrite ?isBefore_iff in *; (lia || (exfalso; lia))).

(** X2: [compareAsc] is a comparator of the order of dates, fit for
    sorting: it returns -1, 0 or 1; 0 exactly on equal dates and -1 exactly
    when the first is before the second; swapping the arguments negates
    it; it is transitive; and [compareDesc] is its negation. *)
Theorem compareAsc_comparator (a b c : Datum) :
  (compareAsc a b = -1 \/ compareAsc a b = 0 \/ compareAsc a b = 1)
  /\ (compareAsc a b = 0 <-> a = b)
  /\ (compareAsc a b = -1 <-> isBefore a b = true)
  /\ (compareAsc a b = 1 <-> isAfter a b = true)
  /\ compareAsc b a = - compareAsc a b
  /\ compareDesc a b = - compareAsc a b
  /\ (compareAsc a b <= 0 -> compareAsc b c <= 0 -> compareAsc a c <= 0).
Proof.
  rewrite isAfter_isBefore.
  destruct (compareAsc_cases a b) as [(Hab & Eab & Dab)|[(Hab & Eab & Dab)|(Hab & Eab & Dab)]];
  destruct (compareAsc_cases b a) as [(Hba & Eba & _)|[(Hba & Eba & _)|(Hba & Eba & _)]];
  destruct (compareAsc_cases b c) as [(Hbc & Ebc & _)|[(Hbc & Ebc & _)|(Hbc & Ebc & _)]];
  destruct (compareAsc_cases a c) as [(Hac & Eac & _)|[(Hac & Eac & _)|(Hac & Eac & _)]];
  rewrite Eab, Eba, Ebc, Eac, Dab; clear Eab Eba Ebc Eac Dab;
  repeat split; intros; order_solve.
Qed.

Lemma compareAsc_comparator_witness :
  compareAsc (mkDatum 1373 10 11) (mkDatum 3994 2 8) <= 0.
Proof.
  apply (proj2 (proj2 (proj2 (proj2 (proj2 (proj2
           (compareAsc_comparator
              (mkDatum 1373 10 11) (mkDatum 2019 8 29) (mkDatum 3994 2 8))))))));
    vm_compute; discriminate.
Defined.

(** ** The constructor and the calendar tables, on any integers *)

Lemma getDaysInMonth_bad_year (y m : Z) :
  ~ 0 <= y <= 9999 -> getDaysInMonth (Int y) (Int m) = Throw YearOutOfRange.
Proof.
  intros H. unfold getDaysInMonth. now rewrite assertIsYear_range.
Qed.

Lemma getDaysInMonth_bad_month (y m : Z) :
  0 <= y <= 9999 -> ~ 1 <= m <= 12 ->
  getDaysInMonth (Int y) (Int m) = Throw MonthOutOfRange.
Proof.
  intros Hy H. unfold getDaysInMonth.
  rewrite assertIsYear_ok by assumption. cbn [bind].
  now rewrite assertIsMonth_range.
Qed.

(** X3: the constructor returns a Datum exactly on the calendar-valid
    triples of integers, and then the Datum made of the three arguments
    unchanged: nothing is clamped or corrected.  On any other triple it
    throws, at the first check that fails in the order year, month, day
    (1..31), length of the month. *)
Theorem constructor_accepts_exactly_valid (y m d : Z) :
  (forall D, Datum_new (Int y) (Int m) (Int d) = Ok D
             <-> D = mkDatum y m d /\ valid D)
  /\ (~ 0 <= y <= 9999 ->
      Datum_new (Int y) (Int m) (Int d) = Throw YearOutOfRange)
  /\ (0 <= y <= 9999 -> ~ 1 <= m <= 12 ->
      Datum_new (Int y) (Int m) (Int d) = Throw MonthOutOfRange)
  /\ (0 <= y <= 9999 -> 1 <= m <= 12 -> ~ 1 <= d <= 31 ->
      Datum_new (Int y) (Int m) (Int d) = Throw DayOutOfRange)
  /\ (0 <= y <= 9999 -> 1 <= m <= 12 -> monthLength y m < d <= 31 ->
      Datum_new (Int y) (Int m) (Int d) = Throw DayExceedsMonth).
Proof.
  split; [|split; [|split; [|split]]].
  - intros D. split.
    + intros E. apply Datum_new_inv in E as (V & Ey & Em & Ed).
      apply Int_inj in Ey, Em, Ed. subst. destruct D; auto.
    + intros (-> & V). now apply Datum_new_valid.
  - intros H. unfold Datum_new. now rewrite assertIsYear_range.
  - intros Hy H. unfold Datum_new. rewrite assertIsYear_ok by assumption.
    cbn [bind]. now rewrite assertIsMonth_range.
  - intros Hy Hm H. unfold Datum_new.
    rewrite assertIsYear_ok, assertIsMonth_ok by assumption. cbn [bind].
    now rewrite assertIsDay_range.
  - intros Hy Hm H. unfold Datum_new.
    pose proof (monthLength_bounds y m).
    rewrite assertIsYear_ok, assertIsMonth_ok, assertIsDay_ok by lia.
    cbn [bind]. rewrite getDaysInMonth_monthLength by assumption. cbn [bind].
    rewrite Z.gtb_ltb. destruct (Z.ltb_spec (monthLength y m) d); [reflexivity | lia].
Qed.

Lemma constructor_accepts_exactly_valid_witness :
  Datum_new (Int 2019) (Int 2) (Int 30) = Throw DayExceedsMonth
  /\ Datum_new (Int 2019) (Int 13) (Int 30) = Throw MonthOutOfRange.
Proof.
  split.
  - apply (proj2 (proj2 (proj2 (proj2
             (constructor_accepts_exactly_valid 2019 2 30)))));
      [lia | lia | vm_compute; split; [reflexivity | discriminate]].
  - apply (proj1 (proj2 (proj2
             (constructor_accepts_exactly_valid 2019 13 30)))); lia.
Defined.

(** X4: [isLeapYear], [getDaysInYear] and [getDaysInMonth] throw on a year
    outside 0..9999, and [getDaysInMonth] on a month outside 1..12 of a
    year in range (the year is checked first); otherwise
    [getDaysInMonth] returns a number from 28 to 31. *)
Theorem calendar_tables_check_their_arguments (y m : Z) :
  (~ 0 <= y <= 9999 ->
   isLeapYear (Int y) = Throw YearOutOfRange
   /\ getDaysInYear (Int y) = Throw YearOutOfRange
   /\ getDaysInMonth (Int y) (Int m) = Throw YearOutOfRange)
  /\ (0 <= y <= 9999 -> ~ 1 <= m <= 12 ->
      getDaysInMonth (Int y) (Int m) = Throw MonthOutOfRange)
  /\ (0 <= y <= 9999 -> 1 <= m <= 12 ->
      exists n, getDaysInMonth (Int y) (Int m) = Ok n /\ 28 <= n <= 31).
Proof.
  split; [|split].
  - intros H. split; [|split].
    + unfold isLeapYear. now rewrite assertIsYear_range.
    + unfold getDaysInYear. now rewrite assertIsYear_range.
    + now apply getDaysInMonth_bad_year.
  - apply getDaysInMonth_bad_month.
  - intros Hy Hm. exists (monthLength y m).
    split; [now apply getDaysInMonth_monthLength | apply monthLength_bounds].
Qed.

Lemma calendar_tables_check_their_arguments_witness :
  getDaysInMonth (Int 10000) (Int 13) = Throw YearOutOfRange
  /\ getDaysInMonth (Int 2016) (Int 0) = Throw MonthOutOfRange.
Proof.
  split.
  - apply (proj1 (calendar_tables_check_their_arguments 10000 13)). lia.
  - apply (proj1 (proj2 (calendar_tables_check_their_arguments 2016 0))); lia.
Defined.

(** X5: for a year in 0..9999 [getDaysInYear] returns 366 when
    [isLeapYear] holds and 365 otherwise, and that is the sum of what
    [getDaysInMonth] returns for the twelve months of the year. *)
Theorem getDaysInYear_sums_the_months (y : Z) (Hy : 0 <= y <= 9999) :
  exists (leap : bool) (total : Z),
    isLeapYear (Int y) = Ok leap
    /\ getDaysInYear (Int y) = Ok total
    /\ total = (if leap then 366 else 365)
    /\ sumDaysInMonths y [1; 2; 3; 4; 5; 6; 7; 8; 9; 10; 11; 12] = Ok total.
Proof.
  exists (leapb y), (yearLength y).
  split; [now apply isLeapYear_leapb|]. split.
  - unfold getDaysInYear.
    rewrite assertIsYear_ok, isLeapYear_leapb by assumption. reflexivity.
  - split; [reflexivity|].
    cbn [sumDaysInMonths].
    rewrite !getDaysInMonth_monthLength by lia. cbn [bind].
    f_equal. cbv -[Z.add leapb]. destruct (leapb y); reflexivity.
Qed.

Lemma getDaysInYear_sums_the_months_witness :
  exists (leap : bool) (total : Z),
    isLeapYear (Int 2000) = Ok leap
    /\ getDaysInYear (Int 2000) = Ok total
    /\ total = (if leap then 366 else 365)
    /\ sumDaysInMonths 2000 [1; 2; 3; 4; 5; 6; 7; 8; 9; 10; 11; 12] = Ok total.
Proof. apply (getDaysInYear_sums_the_months 2000). lia. Defined.

(** ** Strides *)

(** X6: on a valid date [daysUntilFirstDayOfNextMonth] is a number from
    1 to 31; adding that many days does what the loops' step to the first
    day of the next month does (it fails on the year check in December
    9999), and adding one day less gives the last day of the month. *)
Theorem stride_reaches_next_month (d : Datum) (V : valid d) :
  exists stride,
    daysUntilFirstDayOfNextMonth d = Ok stride
    /\ 1 <= stride <= 31
    /\ addDays d (Int stride) = firstDayOfNextMonth d
    /\ (forall next, firstDayOfNextMonth d = Ok next ->
        day next = 1
        /\ 12 * year next + month next = 12 * year d + month d + 1)
    /\ exists last,
        getDaysInMonth (Int (year d)) (Int (month d)) = Ok last
        /\ addDays d (Int (stride - 1)) = Ok (mkDatum (year d) (month d) last).
Proof.
  pose proof V as (Hy & Hm & Hd).
  pose proof (monthLength_bounds (year d) (month d)) as Hb.
  set (len := monthLength (year d) (month d)) in *.
  exists (len - day d + 1).
  split; [now apply daysUntilFirstDayOfNextMonth_valid|].
  split; [lia|].
  destruct (addDays_spec d (len - day d + 1) V ltac:(lia)) as [A B].
  assert (Vl : valid (mkDatum (year d) (month d) len)).
  { unfold valid; cbn [year month day]. fold len. lia. }
  split; [|split].
  - destruct (Z.eq_dec (year d) 9999) as [Ey|Ny];
      [destruct (Z.eq_dec (month d) 12) as [Em|Nm]|].
    + rewrite firstDayOfNextMonth_last by assumption. apply B.
      rewrite dayNumber_last. unfold dayNumber. rewrite Ey, Em.
      pose proof (monthStart_december 9999) as E.
      change (yearLength 9999) with 365 in E.
      unfold len in *. rewrite Ey, Em in *.
      change (monthLength 9999 12) with 31 in *. lia.
    + destruct (firstDayOfNextMonth_valid d V ltac:(lia))
        as (next & -> & Vn & _ & _ & Hnum). fold len in Hnum.
      pose proof (dayNumber_range _ Vn).
      destruct (A ltac:(lia)) as (D & -> & VD & ND).
      f_equal. apply dayNumber_inj; trivial. lia.
    + destruct (firstDayOfNextMonth_valid d V ltac:(lia))
        as (next & -> & Vn & _ & _ & Hnum). fold len in Hnum.
      pose proof (dayNumber_range _ Vn).
      destruct (A ltac:(lia)) as (D & -> & VD & ND).
      f_equal. apply dayNumber_inj; trivial. lia.
  - intros next E.
    destruct (Z.eq_dec (year d) 9999) as [Ey|Ny];
      [destruct (Z.eq_dec (month d) 12) as [Em|Nm]|].
    + rewrite firstDayOfNextMonth_last in E by assumption. discriminate E.
    + destruct (firstDayOfNextMonth_valid d V ltac:(lia))
        as (next' & E' & _ & D1 & Hord & _).
      assert (next' = next) by congruence. subst. auto.
    + destruct (firstDayOfNextMonth_valid d V ltac:(lia))
        as (next' & E' & _ & D1 & Hord & _).
      assert (next' = next) by congruence. subst. auto.
  - exists len. split; [now apply getDaysInMonth_monthLength|].
    destruct (addDays_spec d (len - day d + 1 - 1) V ltac:(lia)) as [A' _].
    assert (N : dayNumber (mkDatum (year d) (month d) len)
                = dayNumber d + (len - day d + 1 - 1)).
    { rewrite dayNumber_eq. unfold dayNumber. lia. }
    pose proof (dayNumber_range _ Vl).
    destruct (A' ltac:(lia)) as (D & -> & VD & ND).
    f_equal. apply dayNumber_inj; trivial. lia.
Qed.

Lemma stride_reaches_next_month_witness :
  exists stride,
    daysUntilFirstDayOfNextMonth (mkDatum 2019 7 22) = Ok stride
    /\ 1 <= stride <= 31
    /\ addDays (mkDatum 2019 7 22) (Int stride)
       = firstDayOfNextMonth (mkDatum 2019 7 22)
    /\ (forall next, firstDayOfNextMonth (mkDatum 2019 7 22) = Ok next ->
        day next = 1
        /\ 12 * year next + month next = 12 * 2019 + 7 + 1)
    /\ exists last,
        getDaysInMonth (Int 2019) (Int 7) = Ok last
        /\ addDays (mkDatum 2019 7 22) (Int (stride - 1))
           = Ok (mkDatum 2019 7 last).
Proof. apply (stride_reaches_next_month (mkDatum 2019 7 22)). valid_date. Defined.

(** ** How the day-count operations compose *)

Lemma addDays_Ok_inv (d D : Datum) (n : Z) :
  valid d -> 0 <= n -> addDays d (Int n) = Ok D ->
  valid D /\ dayNumber D = dayNumber d + n
  /\ dayNumber d + n <= dayNumber lastDatum.
Proof.
  intros V Hn E. destruct (addDays_spec d n V Hn) as [A B].
  destruct (Z.le_gt_cases (dayNumber d + n) (dayNumber lastDatum)) as [L|L].
  - destruct (A L) as (D' & E' & VD & ND).
    assert (D' = D) by congruence. subst. auto.
  - rewrite (B L) in E. discriminate E.
Qed.

Lemma subtractDays_Ok_inv (d D : Datum) (n : Z) :
  valid d -> 0 <= n -> subtractDays d (Int n) = Ok D ->
  valid D /\ dayNumber D = dayNumber d - n /\ n <= dayNumber d.
Proof.
  intros V Hn E. destruct (subtractDays_spec d n V Hn) as [A B].
  destruct (Z.le_gt_cases n (dayNumber d)) as [L|L].
  - destruct (A L) as (D' & E' & VD & ND).
    assert (D' = D) by congruence. subst. auto.
  - rewrite (B L) in E. discriminate E.
Qed.

(** X7: adding or subtracting zero days returns the date itself. *)
Theorem zero_days_is_identity (d : Datum) (V : valid d) :
  addDays d (Int 0) = Ok d /\ subtractDays d (Int 0) = Ok d.
Proof.
  pose proof (dayNumber_range _ V) as R. split.
  - destruct (addDays_spec d 0 V ltac:(lia)) as [A _].
    destruct (A ltac:(lia)) as (D & -> & VD & ND).
    f_equal. apply dayNumber_inj; trivial. lia.
  - destruct (subtractDays_spec d 0 V ltac:(lia)) as [A _].
    destruct (A ltac:(lia)) as (D & -> & VD & ND).
    f_equal. apply dayNumber_inj; trivial. lia.
Qed.

Lemma zero_days_is_identity_witness :
  addDays (mkDatum 2028 12 30) (Int 0) = Ok (mkDatum 2028 12 30)
  /\ subtractDays (mkDatum 2028 12 30) (Int 0) = Ok (mkDatum 2028 12 30).
Proof. apply (zero_days_is_identity (mkDatum 2028 12 30)). valid_date. Defined.

(** X8: the day counts add up: adding [m] days and then [n] days is
    adding [m + n] days, and likewise for subtracting -- also in failing,
    for the two-step walk leaves the years 0..9999 exactly when the
    one-step walk does. *)
Theorem day_counts_add_up (d : Datum) (m n : Z)
        (V : valid d) (Hm : 0 <= m) (Hn : 0 <= n) :
  (d' <- addDays d (Int m) ;; addDays d' (Int n)) = addDays d (Int (m + n))
  /\ (d' <- subtractDays d (Int m) ;; subtractDays d' (Int n))
     = subtractDays d (Int (m + n)).
Proof.
  split.
  - destruct (addDays_spec d m V Hm) as [A1 B1].
    destruct (addDays_spec d (m + n) V ltac:(lia)) as [A B].
    destruct (Z.le_gt_cases (dayNumber d + m) (dayNumber lastDatum)) as [L1|L1].
    + destruct (A1 L1) as (d' & -> & V' & N'). cbn [bind].
      destruct (addDays_spec d' n V' Hn) as [A2 B2].
      destruct (Z.le_gt_cases (dayNumber d' + n) (dayNumber lastDatum))
        as [L2|L2].
      * destruct (A2 L2) as (D2 & -> & V2 & N2).
        destruct (A ltac:(lia)) as (D & -> & VD & ND).
        f_equal. apply dayNumber_inj; trivial. lia.
      * rewrite (B2 L2), (B ltac:(lia)). reflexivity.
    + rewrite (B1 L1), (B ltac:(lia)). reflexivity.
  - destruct (subtractDays_spec d m V Hm) as [A1 B1].
    destruct (subtractDays_spec d (m + n) V ltac:(lia)) as [A B].
    destruct (Z.le_gt_cases m (dayNumber d)) as [L1|L1].
    + destruct (A1 L1) as (d' & -> & V' & N'). cbn [bind].
      destruct (subtractDays_spec d' n V' Hn) as [A2 B2].
      destruct (Z.le_gt_cases n (dayNumber d')) as [L2|L2].
      * destruct (A2 L2) as (D2 & -> & V2 & N2).
        destruct (A ltac:(lia)) as (D & -> & VD & ND).
        f_equal. apply dayNumber_inj; trivial. lia.
      * rewrite (B2 L2), (B ltac:(lia)). reflexivity.
    + rewrite (B1 L1), (B ltac:(lia)). reflexivity.
Qed.

Lemma day_counts_add_up_witness :
  (d' <- addDays (mkDatum 2028 12 30) (Int 1) ;; addDays d' (Int 1))
  = addDays (mkDatum 2028 12 30) (Int (1 + 1))
  /\ (d' <- subtractDays (mkDatum 2028 12 30) (Int 1) ;;
      subtractDays d' (Int 1))
     = subtractDays (mkDatum 2028 12 30) (Int (1 + 1)).
Proof.
  apply (day_counts_add_up (mkDatum 2028 12 30) 1 1); [valid_date | lia | lia].
Defined.

(** X9: [subtractDays] fails on valid input at the lower end of the
    calendar: 0000-01-01 minus one day fails on the year check.  For a
    valid date [d] and [n >= 0], [d.subtractDays(n)] returns a date exactly
    when [d] is at least [n] days after 0000-01-01; it then returns the day
    [n] days before [d], and otherwise fails on the year check. *)
Theorem subtractDays_fails_before_first_day :
  subtractDays firstDatum (Int 1) = Throw YearOutOfRange
  /\ forall (d : Datum) (n : Z),
      valid d -> 0 <= n ->
      ((exists D, subtractDays d (Int n) = Ok D) <-> n <= dayNumber d)
      /\ (forall D, subtractDays d (Int n) = Ok D ->
                    valid D /\ dayNumber D = dayNumber d - n)
      /\ (dayNumber d < n -> subtractDays d (Int n) = Throw YearOutOfRange).
Proof.
  split; [reflexivity|].
  intros d n V Hn. destruct (subtractDays_spec d n V Hn) as [A B].
  split; [split|split].
  - intros (D & E). now apply subtractDays_Ok_inv in E.
  - intros L. destruct (A L) as (D & E & _). eauto.
  - intros D E. apply subtractDays_Ok_inv in E; tauto.
  - exact B.
Qed.

Lemma subtractDays_fails_before_first_day_witness :
  (exists D, subtractDays (mkDatum 0 1 2) (Int 1) = Ok D)
  <-> 1 <= dayNumber (mkDatum 0 1 2).
Proof.
  apply (proj2 subtractDays_fails_before_first_day (mkDatum 0 1 2) 1);
    [valid_date | lia].
Defined.

(** X10: subtracting and adding back: when [d.subtractDays(n)] returns a
    date, adding [n] days to it returns [d]. *)
Theorem subtractDays_addDays_inverse (d d' : Datum) (n : Z)
        (V : valid d) (Hn : 0 <= n)
        (Hsub : subtractDays d (Int n) = Ok d') :
  addDays d' (Int n) = Ok d.
Proof.
  apply subtractDays_Ok_inv in Hsub as (V' & N' & L); trivial.
  pose proof (dayNumber_range _ V).
  destruct (addDays_spec d' n V' Hn) as [A _].
  destruct (A ltac:(lia)) as (D & -> & VD & ND).
  f_equal. apply dayNumber_inj; trivial. lia.
Qed.

Lemma subtractDays_addDays_inverse_witness :
  addDays (mkDatum 2020 2 29) (Int 16) = Ok (mkDatum 2020 3 16).
Proof.
  apply (subtractDays_addDays_inverse (mkDatum 2020 3 16) (mkDatum 2020 2 29) 16);
    [valid_date | lia | vm_compute; reflexivity].
Defined.

(** X11: [deltaDays] is a distance on the valid dates: it returns a
    number that is not negative, zero exactly between a date and itself;
    the distance from [a] to [c] is at most the distance over any [b], and
    exactly that when [b] lies between them. *)
Theorem deltaDays_is_a_distance (a b c : Datum)
        (Va : valid a) (Vb : valid b) (Vc : valid c) :
  exists kab kbc kac,
    deltaDays a b = Ok kab /\ deltaDays b c = Ok kbc /\ deltaDays a c = Ok kac
    /\ 0 <= kab
    /\ (kab = 0 <-> a = b)
    /\ kac <= kab + kbc
    /\ (isBefore b a = false -> isBefore c b = false -> kac = kab + kbc).
Proof.
  exists (Z.abs (dayNumber b - dayNumber a)),
    (Z.abs (dayNumber c - dayNumber b)), (Z.abs (dayNumber c - dayNumber a)).
  rewrite !deltaDays_spec by assumption.
  split; [reflexivity|]. split; [reflexivity|]. split; [reflexivity|].
  split; [lia|]. split; [|split].
  - split.
    + intros E. apply dayNumber_inj; trivial. lia.
    + intros ->. lia.
  - lia.
  - intros Hba Hcb.
    assert (dayNumber a <= dayNumber b).
    { destruct (Z.le_gt_cases (dayNumber a) (dayNumber b)) as [G|G]; [exact G|].
      apply dayNumber_isBefore in G; trivial. congruence. }
    assert (dayNumber b <= dayNumber c).
    { destruct (Z.le_gt_cases (dayNumber b) (dayNumber c)) as [G|G]; [exact G|].
      apply dayNumber_isBefore in G; trivial. congruence. }
    lia.
Qed.

Lemma deltaDays_is_a_distance_witness :
  exists kab kbc kac,
    deltaDays (mkDatum 2018 4 3) (mkDatum 2018 10 5) = Ok kab
    /\ deltaDays (mkDatum 2018 10 5) (mkDatum 2019 8 26) = Ok kbc
    /\ deltaDays (mkDatum 2018 4 3) (mkDatum 2019 8 26) = Ok kac
    /\ 0 <= kab
    /\ (kab = 0 <-> mkDatum 2018 4 3 = mkDatum 2018 10 5)
    /\ kac <= kab + kbc
    /\ (isBefore (mkDatum 2018 10 5) (mkDatum 2018 4 3) = false ->
        isBefore (mkDatum 2019 8 26) (mkDatum 2018 10 5) = false ->
        kac = kab + kbc).
Proof.
  apply (deltaDays_is_a_distance
           (mkDatum 2018 4 3) (mkDatum 2018 10 5) (mkDatum 2019 8 26));
    valid_date.
Defined.

(** X12: [deltaDays] is the number of days that [addDays] has added, and
    [addDays] moves strictly forward: when [d.addDays(n)] returns [d'],
    [d.deltaDays(d')] is [n], and [d] is before [d'] unless [n] is 0. *)
Theorem deltaDays_counts_added_days (d d' : Datum) (n : Z)
        (V : valid d) (Hn : 0 <= n) (Hadd : addDays d (Int n) = Ok d') :
  deltaDays d d' = Ok n
  /\ deltaDays d' d = Ok n
  /\ (0 < n -> isBefore d d' = true)
  /\ (n = 0 -> d' = d).
Proof.
  apply addDays_Ok_inv in Hadd as (V' & N' & _); trivial.
  split; [|split; [|split]].
  - rewrite deltaDays_spec by assumption. f_equal. lia.
  - rewrite deltaDays_spec by assumption. f_equal. lia.
  - intros P. apply dayNumber_isBefore; trivial. lia.
  - intros ->. apply dayNumber_inj; trivial. lia.
Qed.

Lemma deltaDays_counts_added_days_witness :
  deltaDays (mkDatum 2028 5 29) (mkDatum 2028 10 9) = Ok 133
  /\ deltaDays (mkDatum 2028 10 9) (mkDatum 2028 5 29) = Ok 133
  /\ (0 < 133 -> isBefore (mkDatum 2028 5 29) (mkDatum 2028 10 9) = true)
  /\ (133 = 0 -> mkDatum 2028 10 9 = mkDatum 2028 5 29).
Proof.
  apply (deltaDays_counts_added_days (mkDatum 2028 5 29) (mkDatum 2028 10 9) 133);
    [valid_date | lia | vm_compute; reflexivity].
Defined.

(** X13: [deltaDays] measures [subtractDays] as well: when [a] is before
    [b], subtracting [a.deltaDays(b)] days from [b] returns [a]. *)
Theorem deltaDays_inverse_of_subtractDays (a b : Datum)
        (Va : valid a) (Vb : valid b) (H : isBefore a b = true) :
  exists k, deltaDays a b = Ok k /\ subtractDays b (Int k) = Ok a.
Proof.
  exists (dayNumber b - dayNumber a).
  split; [now apply deltaDays_before|].
  pose proof (dayNumber_lt _ _ Va Vb H).
  pose proof (dayNumber_range _ Va).
  destruct (subtractDays_spec b (dayNumber b - dayNumber a) Vb ltac:(lia))
    as [A _].
  destruct (A ltac:(lia)) as (D & -> & VD & ND).
  f_equal. apply dayNumber_inj; trivial. lia.
Qed.

Lemma deltaDays_inverse_of_subtractDays_witness :
  exists k,
    deltaDays (mkDatum 2018 4 3) (mkDatum 2018 10 5) = Ok k
    /\ subtractDays (mkDatum 2018 10 5) (Int k) = Ok (mkDatum 2018 4 3).
Proof.
  apply (deltaDays_inverse_of_subtractDays
           (mkDatum 2018 4 3) (mkDatum 2018 10 5));
    [valid_date | valid_date | reflexivity].
Defined.

(** X14: the weekday moves with the days added: when [d.addDays(n)]
    returns [d'], the number of the weekday of [d'] is that of [d] plus
    [n], modulo 7; a week later the weekday is the same. *)
Theorem weekday_follows_addDays (d d' : Datum) (n : Z)
        (V : valid d) (Hn : 0 <= n) (Hadd : addDays d (Int n) = Ok d') :
  exists w w',
    weekday d = Ok w /\ weekday d' = Ok w'
    /\ Weekday_value w' = (Weekday_value w + n) mod 7
    /\ (n mod 7 = 0 -> w' = w).
Proof.
  apply addDays_Ok_inv in Hadd as (V' & N' & _); trivial.
  destruct (weekday_spec d V) as (w & E & _ & Nw).
  destruct (weekday_spec d' V') as (w' & E' & _ & Nw').
  exists w, w'. split; [exact E|]. split; [exact E'|].
  assert (S : Weekday_value w' = (Weekday_value w + n) mod 7).
  { rewrite Nw, Nw', N', Z.add_mod_idemp_l by lia.
    now replace (dayNumber d + n - dayNumber referenceMonday)
      with (dayNumber d - dayNumber referenceMonday + n) by lia. }
  split; [exact S|].
  intros Z7.
  assert (R : 0 <= Weekday_value w < 7) by (destruct w; cbn; lia).
  assert (Weekday_value w' = Weekday_value w).
  { rewrite S. clear - Z7 R. Z.div_mod_to_equations. lia. }
  destruct w, w'; cbn in *; congruence || lia.
Qed.

Lemma weekday_follows_addDays_witness :
  exists w w',
    weekday (mkDatum 2019 8 19) = Ok w /\ weekday (mkDatum 2019 8 26) = Ok w'
    /\ Weekday_value w' = (Weekday_value w + 7) mod 7
    /\ (7 mod 7 = 0 -> w' = w).
Proof.
  apply (weekday_follows_addDays (mkDatum 2019 8 19) (mkDatum 2019 8 26) 7);
    [valid_date | lia | vm_compute; reflexivity].
Defined.

(** ** The internal check of [deltaDays] *)

Lemma bind_Throw_inv {A B : Type} (r : result A) (k : A -> result B)
      (f : failure) :
  (x <- r ;; k x) = Throw f ->
  r = Throw f \/ exists a, r = Ok a /\ k a = Throw f.
Proof.
  destruct r; cbn [bind]; intros E;
    [right; eauto | left; now inversion E | discriminate E].
Qed.

Lemma assertIsYear_failure (n : number) (f : failure) :
  assertIsYear n = Throw f -> f = YearNotInteger \/ f = YearOutOfRange.
Proof.
  destruct n as [z|]; cbn [assertIsYear].
  - destruct (_ && _); intros E; inversion E; auto.
  - intros E; inversion E; auto.
Qed.

Lemma assertIsMonth_failure (n : number) (f : failure) :
  assertIsMonth n = Throw f -> f = MonthNotInteger \/ f = MonthOutOfRange.
Proof.
  destruct n as [z|]; cbn [assertIsMonth].
  - destruct (_ && _); intros E; inversion E; auto.
  - intros E; inversion E; auto.
Qed.

Lemma assertIsDay_failure (n : number) (f : failure) :
  assertIsDay n = Throw f -> f = DayNotInteger \/ f = DayOutOfRange.
Proof.
  destruct n as [z|]; cbn [assertIsDay].
  - destruct (_ && _); intros E; inversion E; auto.
  - intros E; inversion E; auto.
Qed.

Lemma getDaysInMonth_failure (ny nm : number) (f : failure) :
  getDaysInMonth ny nm = Throw f -> f <> DeltaInvariant.
Proof.
  unfold getDaysInMonth, isLeapYear. intros E.
  apply bind_Throw_inv in E as [E|(y & _ & E)];
    [apply assertIsYear_failure in E; intuition congruence|].
  apply bind_Throw_inv in E as [E|(m & _ & E)];
    [apply assertIsMonth_failure in E; intuition congruence|].
  apply bind_Throw_inv in E as [E|(l & _ & E)]; [|discriminate E].
  apply bind_Throw_inv in E as [E|(y' & _ & E)]; [|discriminate E].
  apply assertIsYear_failure in E; intuition congruence.
Qed.

Lemma Datum_new_failure (ny nm nd : number) (f : failure) :
  Datum_new ny nm nd = Throw f -> f <> DeltaInvariant.
Proof.
  unfold Datum_new. intros E.
  apply bind_Throw_inv in E as [E|(y & _ & E)];
    [apply assertIsYear_failure in E; intuition congruence|].
  apply bind_Throw_inv in E as [E|(m & _ & E)];
    [apply assertIsMonth_failure in E; intuition congruence|].
  apply bind_Throw_inv in E as [E|(d & _ & E)];
    [apply assertIsDay_failure in E; intuition congruence|].
  apply bind_Throw_inv in E as [E|(l & _ & E)];
    [now apply getDaysInMonth_failure in E|].
  destruct (d >? l); inversion E. discriminate.
Qed.

Lemma deltaDays_loop_failure (fuel : nat) :
  forall (acc : Z) (current until : Datum) (f : failure),
    deltaDays_loop fuel acc current until = Throw f -> f <> DeltaInvariant.
Proof.
  induction fuel as [|fuel IH]; intros acc current until f;
    cbn [deltaDays_loop]; [discriminate|].
  destruct (_ && _); [discriminate|]. intros E.
  apply bind_Throw_inv in E as [E|(stride & _ & E)].
  - unfold daysUntilFirstDayOfNextMonth in E.
    apply bind_Throw_inv in E as [E|(l & _ & E)]; [|discriminate E].
    now apply getDaysInMonth_failure in E.
  - apply bind_Throw_inv in E as [E|(next & _ & E)].
    + unfold firstDayOfNextMonth in E.
      destruct (month current =? 12); now apply Datum_new_failure in E.
    + now apply IH in E.
Qed.

(** X15: the internal check of [deltaDays] never fails: for any two
    Datums that are not equal, the later one it picks as [until] and the
    earlier one it picks as [current] are not equal either, and no call of
    [deltaDays] ends in the failure of that check. *)
Theorem deltaDays_check_never_fails (this other : Datum) :
  (isEqual this other = false ->
   isEqual (if isAfter this other then this else other)
           (if isBefore this other then this else other) = false)
  /\ forall f, deltaDays this other = Throw f -> f <> DeltaInvariant.
Proof.
  assert (K : isEqual this other = false ->
              isEqual (if isAfter this other then this else other)
                      (if isBefore this other then this else other) = false).
  { intros N.
    destruct (exactly_one_holds this other)
      as [(B & E & A)|[(B & E & A)|(B & E & A)]]; rewrite B, A.
    - apply isEqual_false. intros ->.
      rewrite (proj2 (isEqual_iff this this) eq_refl) in N. discriminate N.
    - congruence.
    - exact N. }
  split; [exact K|].
  intros f. unfold deltaDays.
  destruct (isEqual this other) eqn:N; [discriminate|].
  rewrite (K eq_refl). apply deltaDays_loop_failure.
Qed.

Lemma deltaDays_check_never_fails_witness :
  isEqual (if isAfter (mkDatum 2037 4 18) (mkDatum 2030 6 15)
           then mkDatum 2037 4 18 else mkDatum 2030 6 15)
          (if isBefore (mkDatum 2037 4 18) (mkDatum 2030 6 15)
           then mkDatum 2037 4 18 else mkDatum 2030 6 15) = false.
Proof.
  apply (proj1 (deltaDays_check_never_fails
                  (mkDatum 2037 4 18) (mkDatum 2030 6 15))).
  reflexivity.
Defined.

(** ** Labels, tuples and host dates *)

(** X16: on a valid date [weekdayString] returns the three-letter
    lower-case label of the weekday that [weekday] returns -- mon, tue,
    wed, thu, fri, sat or sun -- and different weekdays have different
    labels. *)
Theorem weekdayString_labels (d : Datum) (V : valid d) :
  exists w,
    weekday d = Ok w
    /\ weekdayString d = Ok (Weekday_label w)
    /\ String.length (Weekday_label w) = 3%nat
    /\ forall w', Weekday_label w' = Weekday_label w -> w' = w.
Proof.
  destruct (weekday_spec d V) as (w & E & _).
  exists w. split; [exact E|]. unfold weekdayString. rewrite E. cbn [bind].
  split; [destruct w; reflexivity|].
  split; [destruct w; reflexivity|].
  intros w' L. destruct w, w'; try reflexivity; discriminate L.
Qed.

Lemma weekdayString_labels_witness :
  exists w,
    weekday (mkDatum 2018 10 5) = Ok w
    /\ weekdayString (mkDatum 2018 10 5) = Ok (Weekday_label w)
    /\ String.length (Weekday_label w) = 3%nat
    /\ forall w', Weekday_label w' = Weekday_label w -> w' = w.
Proof. apply (weekdayString_labels (mkDatum 2018 10 5)). valid_date. Defined.

(** X17: tuples round trip: [fromTuple] gives back a valid date from its
    [toTuple], and the [toTuple] of what [fromTuple] returns is the tuple
    it was given. *)
Theorem tuple_round_trip :
  (forall d : Datum, valid d -> fromTuple (tupleNumbers (toTuple d)) = Ok d)
  /\ (forall (t : Z * Z * Z) (d : Datum),
         fromTuple (tupleNumbers t) = Ok d -> toTuple d = t /\ valid d).
Proof.
  split.
  - intros [y m d] V. cbn [toTuple tupleNumbers fromTuple year month day].
    now apply Datum_new_valid.
  - intros [[y m] dd] d E. cbn [tupleNumbers fromTuple] in E.
    apply Datum_new_inv in E as (V & Ey & Em & Ed).
    apply Int_inj in Ey, Em, Ed. subst. split; [reflexivity | exact V].
Qed.

Lemma tuple_round_trip_witness :
  fromTuple (tupleNumbers (toTuple (mkDatum 2028 12 30)))
  = Ok (mkDatum 2028 12 30)
  /\ toTuple (mkDatum 2028 12 30) = (2028, 12, 30).
Proof.
  split.
  - apply (proj1 tuple_round_trip (mkDatum 2028 12 30)). valid_date.
  - apply (proj2 tuple_round_trip (2028, 12, 30) (mkDatum 2028 12 30)).
    reflexivity.
Defined.

(** X18: [fromDate] returns a Datum exactly when the year, the month plus
    one and the day of the host date are a valid date, and then that date:
    the month of the host counts from 0, that of the Datum from 1.  It
    throws on an invalid host date (whose fields are [NaN]) and on a host
    date of a year outside 0..9999. *)
Theorem fromDate_shifts_the_month (date : Date) :
  (forall d, fromDate date = Ok d
             <-> getFullYear date = Int (year d)
                 /\ getMonth date = Int (month d - 1)
                 /\ getDate date = Int (day d)
                 /\ valid d)
  /\ (getFullYear date = NotInt -> fromDate date = Throw YearNotInteger)
  /\ (forall y, getFullYear date = Int y -> ~ 0 <= y <= 9999 ->
                fromDate date = Throw YearOutOfRange).
Proof.
  destruct date as [ny nm nd]. unfold fromDate.
  cbn [getFullYear getMonth getDate]. split; [|split].
  - intros d. split.
    + intros E. apply Datum_new_inv in E as (V & Ey & Em & Ed).
      destruct nm as [m|]; [|discriminate Em]. cbn [number_add] in Em.
      apply Int_inj in Em. subst.
      split; [reflexivity|]. split; [f_equal; lia|]. split; [reflexivity | exact V].
    + intros (-> & -> & -> & V). cbn [number_add].
      replace (month d - 1 + 1) with (month d) by lia.
      destruct d. now apply Datum_new_valid.
  - intros ->. reflexivity.
  - intros y -> H. unfold Datum_new. now rewrite assertIsYear_range.
Qed.

Lemma fromDate_shifts_the_month_witness :
  fromDate (mkDate (Int 2017) (Int 4) (Int 15)) = Ok (mkDatum 2017 5 15)
  /\ fromDate (mkDate NotInt NotInt NotInt) = Throw YearNotInteger.
Proof.
  split.
  - apply (proj1 (fromDate_shifts_the_month
                    (mkDate (Int 2017) (Int 4) (Int 15)))).
    repeat split; try reflexivity; cbn [year month day]; vm_compute;
      discriminate.
  - apply (proj1 (proj2 (fromDate_shifts_the_month
                           (mkDate NotInt NotInt NotInt)))).
    reflexivity.
Defined.

(** ** Padding and the string form *)







(** X20: the string form of a valid date always has ten characters, of
    the form YYYY-MM-DD in decimal digits, and [fromString] returns the
    date [d] on a string exactly when the string is the string form of [d]
    and [d] is valid. *)
Theorem fromString_accepts_exactly_toString :
  (forall d : Datum,
      valid d ->
      String.length (toString d) = 10%nat /\ matchesFormat (toString d))
  /\ (forall (s : string) (d : Datum),
         fromString s = Ok d <-> valid d /\ toString d = s).
Proof.
  split.
  - intros d V. rewrite toString_shape by assumption.
    split; [reflexivity|].
    pose proof V as (Hy & Hm & Hd).
    pose proof (monthLength_bounds (year d) (month d)).
    destruct (decimal4 (year d) Hy) as (Y1 & Y2 & Y3 & Y4 & _).
    destruct (decimal2 (month d) ltac:(lia)) as (M1 & M2 & _).
    destruct (decimal2 (day d) ltac:(lia)) as (D1 & D2 & _).
    do 8 eexists. split; [reflexivity|].
    repeat split; now apply isDigit_digitChar.
  - intros s d. split.
    + intros E. split; [|now apply toString_fromString].
      unfold fromString in E. destruct (negb _); [discriminate E|].
      destruct (match_REGEX s) as [[[g1 g2] g3]|]; [|discriminate E].
      now apply Datum_new_valid_result in E.
    + intros (V & <-). now apply fromString_toString.
Qed.

Lemma fromString_accepts_exactly_toString_witness :
  String.length (toString (mkDatum 5 1 1)) = 10%nat
  /\ matchesFormat (toString (mkDatum 5 1 1)).
Proof.
  apply (proj1 fromString_accepts_exactly_toString (mkDatum 5 1 1)).
  valid_date.
Defined.

(** ** Age *)

(** X21: [age] counts the birthdays reached: with [t] the date of today,
    the age [a] of a person born on [this] is the largest number [k] for
    which the day and month of [this] in the year [this.year + k] is not
    after [t]; it is the difference of the years, or one less.  When the
    date of today cannot be built, [age] throws as [today] does. *)
Theorem age_counts_birthdays (this : Datum) (now : Date) :
  (forall t, fromDate now = Ok t ->
     exists a,
       age this now = Ok a
       /\ (forall k, k <= a
                     <-> isBefore t (mkDatum (year this + k) (month this)
                                             (day this)) = false)
       /\ (a = year t - year this \/ a = year t - year this - 1)
       /\ (this = t -> a = 0))
  /\ (forall f, fromDate now = Throw f -> age this now = Throw f).
Proof.
  split.
  - intros t E. unfold age, today. rewrite E. cbn [bind].
    eexists. split; [reflexivity|].
    split; [|split].
    + intros k.
      destruct (isBefore t _) eqn:B.
      * apply isBefore_iff in B. cbn [year month day] in B.
        split; [|discriminate]. zbool; cbn [orb andb]; lia.
      * split; [reflexivity|]. intros _.
        assert (N : ~ (year t < year this + k
                       \/ (year t = year this + k /\ month t < month this)
                       \/ (year t = year this + k /\ month t = month this
                           /\ day t < day this))).
        { intros H.
          apply (isBefore_iff t (mkDatum (year this + k) (month this)
                                         (day this))) in H.
          congruence. }
        zbool; cbn [orb andb]; lia.
    + zbool; cbn [orb andb]; lia.
    + intros ->. zbool; cbn [orb andb]; lia.
  - intros f E. unfold age, today. now rewrite E.
Qed.

Lemma age_counts_birthdays_witness :
  exists a,
    age (mkDatum 1988 9 11) (mkDate (Int 2019) (Int 7) (Int 26)) = Ok a
    /\ (forall k, k <= a
                  <-> isBefore (mkDatum 2019 8 26)
                               (mkDatum (year (mkDatum 1988 9 11) + k)
                                        (month (mkDatum 1988 9 11))
                                        (day (mkDatum 1988 9 11))) = false)
    /\ (a = year (mkDatum 2019 8 26) - year (mkDatum 1988 9 11)
        \/ a = year (mkDatum 2019 8 26) - year (mkDatum 1988 9 11) - 1)
    /\ (mkDatum 1988 9 11 = mkDatum 2019 8 26 -> a = 0).
Proof.
  apply (proj1 (age_counts_birthdays (mkDatum 1988 9 11)
                  (mkDate (Int 2019) (Int 7) (Int 26))) (mkDatum 2019 8 26)).
  reflexivity.
Defined.

(** ** Minimum and maximum, once more *)

Lemma min_nonempty (a : Datum) (l : list Datum) :
  exists lo, min (a :: l) = Some lo /\ In lo (a :: l)
             /\ forall x, In x (a :: l) -> isBefore x lo = false.
Proof.
  change (min (a :: l)) with (fold_left min_step l (Some a)).
  destruct (min_fold l a) as (lo & E & I & A & H).
  exists lo. split; [exact E|]. split.
  - destruct I; [left; congruence | now right].
  - intros x [<-|Hx]; auto.
Qed.

Lemma max_nonempty (a : Datum) (l : list Datum) :
  exists hi, max (a :: l) = Some hi /\ In hi (a :: l)
             /\ forall x, In x (a :: l) -> isAfter x hi = false.
Proof.
  change (max (a :: l)) with (fold_left max_step l (Some a)).
  destruct (max_fold l a) as (hi & E & I & A & H).
  exists hi. split; [exact E|]. split.
  - destruct I; [left; congruence | now right].
  - intros x [<-|Hx]; auto.
Qed.

(** The earliest date of a sequence is one date: what [min] returns is
    decided by the dates in the sequence. *)
Lemma min_unique (l : list Datum) (m : Datum) :
  In m l -> (forall x, In x l -> isBefore x m = false) -> min l = Some m.
Proof.
  intros I H. destruct l as [|a l]; [destruct I|].
  destruct (min_nonempty a l) as (lo & E & Ilo & Hlo).
  rewrite E. f_equal.
  destruct (trichotomy lo m) as [T|[T|T]]; [|exact T|].
  - rewrite (H lo Ilo) in T. discriminate T.
  - rewrite (Hlo m I) in T. discriminate T.
Qed.

Lemma max_unique (l : list Datum) (m : Datum) :
  In m l -> (forall x, In x l -> isAfter x m = false) -> max l = Some m.
Proof.
  intros I H. destruct l as [|a l]; [destruct I|].
  destruct (max_nonempty a l) as (hi & E & Ihi & Hhi).
  rewrite E. f_equal.
  pose proof (H hi Ihi) as H1. pose proof (Hhi m I) as H2.
  rewrite isAfter_isBefore in H1, H2.
  destruct (trichotomy hi m) as [T|[T|T]]; [|exact T|]; congruence.
Qed.

Lemma isBefore_lt_le (a b c : Datum) :
  isBefore a b = true -> isBefore c b = false -> isBefore a c = true.
Proof.
  intros H N. destruct (trichotomy b c) as [T|[->|T]].
  - now apply (isBefore_trans a b c).
  - exact H.
  - congruence.
Qed.

(** X22: [min] and [max] bracket the sequence in the order of
    [compareAsc]: on a sequence that is not empty they return [lo] and
    [hi] with [compareAsc(lo, x) <= 0] and [compareAsc(x, hi) <= 0] for
    every element [x], so [compareAsc(lo, hi) <= 0]; and when [lo] and
    [hi] are the same date, every element is that date. *)
Theorem min_max_bracket (datums : list Datum) (H : datums <> []) :
  exists lo hi,
    min datums = Some lo /\ max datums = Some hi
    /\ compareAsc lo hi <= 0
    /\ forall x, In x datums ->
                 compareAsc lo x <= 0 /\ compareAsc x hi <= 0
                 /\ (lo = hi -> x = lo).
Proof.
  destruct datums as [|a l]; [contradiction|].
  destruct (min_nonempty a l) as (lo & Elo & Ilo & Hlo).
  destruct (max_nonempty a l) as (hi & Ehi & Ihi & Hhi).
  exists lo, hi. split; [exact Elo|]. split; [exact Ehi|].
  assert (B : forall x, In x (a :: l) ->
                        compareAsc lo x <= 0 /\ compareAsc x hi <= 0).
  { intros x Hx. pose proof (Hlo x Hx) as L. pose proof (Hhi x Hx) as U.
    rewrite isAfter_isBefore in U. split.
    - destruct (compareAsc_cases lo x) as [(_ & -> & _)|[(_ & -> & _)|(T & _)]];
        [lia | lia | congruence].
    - destruct (compareAsc_cases x hi) as [(_ & -> & _)|[(_ & -> & _)|(T & _)]];
        [lia | lia | congruence]. }
  split; [apply (B hi Ihi)|].
  intros x Hx. destruct (B x Hx) as [L U]. split; [exact L|]. split; [exact U|].
  intros <-.
  pose proof (Hlo x Hx) as L'. pose proof (Hhi x Hx) as U'.
  rewrite isAfter_isBefore in U'.
  destruct (trichotomy x lo) as [T|[T|T]]; [congruence | exact T | congruence].
Qed.

Lemma min_max_bracket_witness :
  exists lo hi,
    min [mkDatum 2019 8 29; mkDatum 1373 10 11; mkDatum 3994 2 8] = Some lo
    /\ max [mkDatum 2019 8 29; mkDatum 1373 10 11; mkDatum 3994 2 8] = Some hi
    /\ compareAsc lo hi <= 0
    /\ forall x,
        In x [mkDatum 2019 8 29; mkDatum 1373 10 11; mkDatum 3994 2 8] ->
        compareAsc lo x <= 0 /\ compareAsc x hi <= 0 /\ (lo = hi -> x = lo).
Proof.
  apply (min_max_bracket
           [mkDatum 2019 8 29; mkDatum 1373 10 11; mkDatum 3994 2 8]).
  discriminate.
Defined.

(** X23: [min] and [max] do not depend on the order in which the sequence
    gives its dates: two sequences with the same dates, each as many times,
    have the same minimum and the same maximum; and the minimum of two
    sequences one after the other is the minimum of their two minima
    (likewise for the maximum). *)
Theorem min_max_order_independent (l l' : list Datum) :
  (Permutation l l' -> min l = min l' /\ max l = max l')
  /\ (forall lo lo', min l = Some lo -> min l' = Some lo' ->
                     min (l ++ l') = min [lo; lo'])
  /\ (forall hi hi', max l = Some hi -> max l' = Some hi' ->
                     max (l ++ l') = max [hi; hi']).
Proof.
  split; [|split].
  - intros P. destruct l as [|a l0].
    + apply Permutation_nil in P. subst. split; reflexivity.
    + destruct (min_nonempty a l0) as (lo & Elo & Ilo & Hlo).
      destruct (max_nonempty a l0) as (hi & Ehi & Ihi & Hhi).
      rewrite Elo, Ehi. split; symmetry.
      * apply min_unique; [now apply (Permutation_in _ P)|].
        intros x Hx. apply Hlo. now apply (Permutation_in _ (Permutation_sym P)).
      * apply max_unique; [now apply (Permutation_in _ P)|].
        intros x Hx. apply Hhi. now apply (Permutation_in _ (Permutation_sym P)).
  - intros lo lo' E E'.
    destruct l as [|a l0]; [discriminate E|].
    destruct l' as [|a' l0']; [discriminate E'|].
    destruct (min_nonempty a l0) as (m & Em & Im & Hm).
    destruct (min_nonempty a' l0') as (m' & Em' & Im' & Hm').
    assert (m = lo) by congruence. assert (m' = lo') by congruence. subst.
    destruct (min_nonempty lo [lo']) as (r & -> & Ir & Hr).
    apply min_unique.
    + apply in_or_app. destruct Ir as [<-|[<-|[]]]; auto.
    + intros x Hx. apply in_app_or in Hx.
      destruct (isBefore x r) eqn:T; [|reflexivity].
      destruct Hx as [Hx|Hx].
      * pose proof (Hm x Hx) as N. pose proof (Hr lo (or_introl eq_refl)) as N'.
        pose proof (isBefore_trans_le x r lo T N'). congruence.
      * pose proof (Hm' x Hx) as N.
        pose proof (Hr lo' (or_intror (or_introl eq_refl))) as N'.
        pose proof (isBefore_trans_le x r lo' T N'). congruence.
  - intros hi hi' E E'.
    destruct l as [|a l0]; [discriminate E|].
    destruct l' as [|a' l0']; [discriminate E'|].
    destruct (max_nonempty a l0) as (m & Em & Im & Hm).
    destruct (max_nonempty a' l0') as (m' & Em' & Im' & Hm').
    assert (m = hi) by congruence. assert (m' = hi') by congruence. subst.
    destruct (max_nonempty hi [hi']) as (r & -> & Ir & Hr).
    apply max_unique.
    + apply in_or_app. destruct Ir as [<-|[<-|[]]]; auto.
    + intros x Hx. apply in_app_or in Hx.
      rewrite isAfter_isBefore.
      destruct (isBefore r x) eqn:T; [|reflexivity].
      destruct Hx as [Hx|Hx].
      * pose proof (Hm x Hx) as N. pose proof (Hr hi (or_introl eq_refl)) as N'.
        rewrite isAfter_isBefore in N, N'.
        pose proof (isBefore_lt_le r x hi T N). congruence.
      * pose proof (Hm' x Hx) as N.
        pose proof (Hr hi' (or_intror (or_introl eq_refl))) as N'.
        rewrite isAfter_isBefore in N, N'.
        pose proof (isBefore_lt_le r x hi' T N). congruence.
Qed.

Lemma min_max_order_independent_witness :
  min [mkDatum 2019 8 29; mkDatum 1373 10 11]
  = min [mkDatum 1373 10 11; mkDatum 2019 8 29]
  /\ max [mkDatum 2019 8 29; mkDatum 1373 10 11]
     = max [mkDatum 1373 10 11; mkDatum 2019 8 29].
Proof.
  apply (proj1 (min_max_order_independent
                  [mkDatum 2019 8 29; mkDatum 1373 10 11]
                  [mkDatum 1373 10 11; mkDatum 2019 8 29])).
  apply perm_swap.
Defined.

(** ** The cycle of 400 years *)

Lemma daysBeforeYear_closed_form (k : nat) :
  daysBeforeYear k
  = 365 * Z.of_nat k + (Z.of_nat k + 3) / 4 - (Z.of_nat k + 99) / 100
    + (Z.of_nat k + 399) / 400.
Proof.
  induction k as [|k IH]; [reflexivity|].
  rewrite daysBeforeYear_S, IH, Nat2Z.inj_succ.
  unfold yearLength, leapb. generalize (Z.of_nat k) (Nat2Z.is_nonneg k).
  clear. intros z Hz.
  destruct (Z.eqb_spec (z mod 4) 0), (Z.eqb_spec (z mod 100) 0),
    (Z.eqb_spec (z mod 400) 0); cbn [andb orb negb];
    Z.div_mod_to_equations; lia.
Qed.

Lemma leapb_400 (y : Z) : leapb (y + 400) = leapb y.
Proof.
  unfold leapb.
  replace ((y + 400) mod 4) with (y mod 4) by (Z.div_mod_to_equations; lia).
  replace ((y + 400) mod 100) with (y mod 100)
    by (Z.div_mod_to_equations; lia).
  replace ((y + 400) mod 400) with (y mod 400)
    by (Z.div_mod_to_equations; lia).
  reflexivity.
Qed.

Lemma monthLength_400 (y m : Z) : monthLength (y + 400) m = monthLength y m.
Proof. unfold monthLength. now rewrite leapb_400. Qed.

Lemma daysBeforeMonth_400 (y : Z) (m : nat) :
  daysBeforeMonth (y + 400) m = daysBeforeMonth y m.
Proof.
  unfold daysBeforeMonth. f_equal. apply map_ext.
  intros k. apply monthLength_400.
Qed.

(** X24: the calendar of the code repeats after 400 years, which are
    146097 days, a whole number of weeks: for a valid date up to the year
    9599, the same day and month 400 years later is a valid date, adding
    146097 days returns it, and its weekday is the same. *)
Theorem four_hundred_years_later (d : Datum)
        (V : valid d) (Hy : year d + 400 <= 9999) :
  exists w,
    addDays d (Int 146097) = Ok (mkDatum (year d + 400) (month d) (day d))
    /\ isLeapYear (Int (year d + 400)) = isLeapYear (Int (year d))
    /\ weekday d = Ok w
    /\ weekday (mkDatum (year d + 400) (month d) (day d)) = Ok w.
Proof.
  pose proof V as (Hy0 & Hm & Hd).
  set (d' := mkDatum (year d + 400) (month d) (day d)).
  assert (V' : valid d').
  { unfold valid, d'; cbn [year month day]. rewrite monthLength_400. lia. }
  assert (N : dayNumber d' = dayNumber d + 146097).
  { unfold d'. rewrite dayNumber_eq. unfold dayNumber.
    rewrite daysBeforeMonth_400, !daysBeforeYear_closed_form.
    rewrite !Z2Nat.id by lia. Z.div_mod_to_equations. lia. }
  destruct (weekday_spec d V) as (w & E & _ & Nw).
  destruct (weekday_spec d' V') as (w' & E' & _ & Nw').
  exists w. split; [|split; [|split]].
  - pose proof (dayNumber_range _ V').
    destruct (addDays_spec d 146097 V ltac:(lia)) as [A _].
    destruct (A ltac:(lia)) as (D & -> & VD & ND).
    f_equal. apply dayNumber_inj; trivial. lia.
  - rewrite !isLeapYear_leapb by lia. now rewrite leapb_400.
  - exact E.
  - rewrite E'. f_equal.
    assert (S : Weekday_value w' = Weekday_value w).
    { rewrite Nw, Nw', N.
      replace (dayNumber d + 146097 - dayNumber referenceMonday)
        with (dayNumber d - dayNumber referenceMonday + 20871 * 7) by lia.
      apply Z.mod_add. lia. }
    destruct w, w'; cbn in S; congruence || lia.
Qed.

Lemma four_hundred_years_later_witness :
  exists w,
    addDays (mkDatum 1988 9 11) (Int 146097)
    = Ok (mkDatum (1988 + 400) 9 11)
    /\ isLeapYear (Int (1988 + 400)) = isLeapYear (Int 1988)
    /\ weekday (mkDatum 1988 9 11) = Ok w
    /\ weekday (mkDatum (1988 + 400) 9 11) = Ok w.
Proof.
  apply (four_hundred_years_later (mkDatum 1988 9 11)); [valid_date|].
  cbn [year]. lia.
Defined.
